(** * HyperDrive mock API: the seeded generators of [backend/main.py]

    A shallow embedding of the four request handlers of the FastAPI
    back end ([get_sensitivity], [get_graph], [get_hardware_matrix],
    [upload]) and of the calibration samples that
    [generate_test_files.py] writes, together with the properties of
    the seed derivation, of the sensitivity list, of the layered graph,
    of the hardware table, of the upload echo and of the samples.

    Python values are embedded as follows.
    - [str] is a sequence of Unicode code points, [ord] is the identity;
    - [int] is [Z];
    - [float] is the rational value of a finite binary64 number; the
      arithmetic rounds to nearest, ties to even, as IEEE 754 does;
    - [dict] and [list] results are trees of [pyval], a dict keeping
      its keys in insertion order;
    - a [random.Random] object is a state threaded through the draws. *)

From Stdlib Require Import ZArith QArith List String Ascii Bool Lia Lqa.
From Stdlib Require Import DecimalString DecimalZ DecimalPos Sorted Permutation.
Import ListNotations.

Local Open Scope Z_scope.
Set Warnings "-register-all".

(** ** Python strings *)

Module PyStr.

(** A code point; [ord c] is its number. *)
Definition char := N.
Definition str := list char.

Definition ord (c : char) : Z := Z.of_N c.

(** A literal of the source text (ASCII only in [main.py]). *)
Definition lit (s : string) : str :=
  map N_of_ascii (list_ascii_of_string s).

(** [str(i)] for an [int]: decimal digits, a leading minus sign. *)
Definition str_of_int (i : Z) : str :=
  lit (NilZero.string_of_int (Z.to_int i)).

Definition char_eqb (a b : char) : bool := N.eqb a b.

Fixpoint eqb (s t : str) : bool :=
  match s, t with
  | [], [] => true
  | a :: s', b :: t' => char_eqb a b && eqb s' t'
  | _, _ => false
  end.

(** [t.startswith(s)] *)
Fixpoint startswith (s t : str) : bool :=
  match s, t with
  | [], _ => true
  | a :: s', b :: t' => char_eqb a b && startswith s' t'
  | _ :: _, [] => false
  end.

(** [sub in t]: [sub] occurs in [t] as a contiguous run. *)
Fixpoint contains (sub t : str) : bool :=
  startswith sub t ||
  match t with
  | [] => false
  | _ :: t' => contains sub t'
  end.

End PyStr.
Import PyStr.

(** ** Binary64 arithmetic on non-special values

    A finite double is kept as the rational it denotes, in lowest
    terms, so that equal doubles are equal terms.  All the float
    operations of [main.py] take arguments in the unit interval, far
    from overflow; infinities, NaN and the sign of zero do not occur
    and are not represented. *)

Module Float.

Definition float := Q.

(** Nearest integer to [a / b] for [0 < b], a tie going to the even
    neighbour. *)
Definition rne_div (a b : Z) : Z :=
  let q := a / b in
  let r := a mod b in
  match 2 * r ?= b with
  | Lt => q
  | Gt => q + 1
  | Eq => if Z.even q then q else q + 1
  end.

(** [floor (log2 (p / q))] for positive [p] and [q]. *)
Definition ilog2 (p q : Z) : Z :=
  let l := Z.log2 p - Z.log2 q in
  let above := if 0 <=? l then q * 2 ^ l <=? p else q <=? p * 2 ^ (- l) in
  if above then l else l - 1.

(** The double nearest to the rational [x]: a 53-bit significand
    [m] and an exponent [e] no smaller than that of the subnormals. *)
Definition round_b64 (x : Q) : float :=
  let p := Qnum x in
  let q := Zpos (Qden x) in
  if p =? 0 then 0%Q else
  let a := Z.abs p in
  let e := Z.max (ilog2 a q - 52) (-1074) in
  if 0 <=? e
  then Qred (inject_Z (Z.sgn p * rne_div a (q * 2 ^ e) * 2 ^ e))
  else Qred (Z.sgn p * rne_div (a * 2 ^ (- e)) q # Z.to_pos (2 ^ (- e))).

(** A decimal literal of the source, e.g. [0.08]. *)
Definition literal (x : Q) : float := round_b64 x.

Definition mul (x y : float) : float := round_b64 (x * y).
Definition add (x y : float) : float := round_b64 (x + y).

(** [x < y] *)
Definition ltb (x y : float) : bool :=
  Qnum x * QDen y <? Qnum y * QDen x.

(** [round(x, ndigits)] for [0 <= ndigits]: the decimal with
    [ndigits] places nearest to the exact value of [x] (half to
    even), read back as a double. *)
Definition round (x : float) (ndigits : Z) : float :=
  let t := 10 ^ ndigits in
  round_b64 (rne_div (Qnum x * t) (QDen x) # Z.to_pos t).

End Float.

Import Float.

(** ** Values returned by the handlers *)

Inductive pyval : Type :=
| PNone
| PBool (b : bool)
| PInt (i : Z)
| PFloat (x : float)
| PStr (s : str)
| PList (l : list pyval)
| PDict (d : list (str * pyval)).

(** [d[k]] on a dict, the first binding of the key. *)
Fixpoint assoc (k : str) (d : list (str * pyval)) : option pyval :=
  match d with
  | [] => None
  | (k', v) :: d' => if PyStr.eqb k k' then Some v else assoc k d'
  end.

Definition get (k : string) (v : pyval) : option pyval :=
  match v with
  | PDict d => assoc (lit k) d
  | _ => None
  end.

(** The keys of a dict, in insertion order. *)
Definition keys (v : pyval) : list str :=
  match v with
  | PDict d => map fst d
  | _ => []
  end.

(** ** Builtins *)

(** [sum(xs)]: left to right from 0. *)
Definition sum (xs : list Z) : Z := fold_left Z.add xs 0.

(** [range(a, b)]: empty when [b <= a]. *)
Definition range (a b : Z) : list Z :=
  map (fun k => a + Z.of_nat k) (seq 0 (Z.to_nat (b - a))).

(** [enumerate(xs)] *)
Definition enumerate {A} (xs : list A) : list (Z * A) :=
  combine (range 0 (Z.of_nat (List.length xs))) xs.

(** ** The [random.Random] interface

    The standard library's generator is outside the repository; the
    handlers use three of its methods, taken here with the contract
    its documentation gives them: [random()] is a double in the
    half-open unit interval, hence at most [1 - 2^-53], the largest
    double below one; [randint(a, b)] is between its bounds; and
    [choice(seq)] is an element of a non-empty [seq].  Every draw
    returns the value together with the advanced generator. *)

Class RandomLib : Type := {
  rng : Type;
  (** [random.Random(seed)] *)
  Random : Z -> rng;
  random : rng -> float * rng;
  randint : Z -> Z -> rng -> Z * rng;
  choice : list str -> rng -> str * rng;
  random_range : forall s,
    (0 <= fst (random s) /\
     fst (random s) <= 9007199254740991 # 9007199254740992)%Q;
  randint_range : forall a b s, a <= b -> a <= fst (randint a b s) <= b;
  choice_In : forall l s, l <> [] -> In (fst (choice l s)) l
}.

(** ** The handlers *)

Section Handlers.

Context {R : RandomLib}.

(** *** [GET /api/jobs/{job_id}/sensitivity] *)

Definition sensitivity_seed (job_id : str) : Z :=
  sum (map ord job_id).

Definition layer_types : list str :=
  [lit "Conv"; lit "Attn"; lit "Dense"; lit "LayerNorm"].

Definition layer_record (name : str) (err : float) : pyval :=
  PDict [(lit "layer", PStr name); (lit "error", PFloat err)].

(** One turn of the loop over [range(1, num_layers + 1)]. *)
Definition sensitivity_step (st : rng * list pyval) (i : Z)
  : rng * list pyval :=
  let '(rnd, layers) := st in
  let '(layer_type, rnd) := choice layer_types rnd in
  let name := layer_type ++ lit "_" ++ str_of_int i in
  let '(r, rnd) := random rnd in
  let base := Float.mul r (Float.literal (8 # 100)) in
  let '(r, rnd) := random rnd in
  let '(err, rnd) :=
    if Float.ltb r (Float.literal (8 # 100))
    then
      let '(r, rnd) := random rnd in
      (Float.round
         (Float.add base (Float.mul r (Float.literal (4 # 10)))) 3, rnd)
    else (Float.round base 3, rnd) in
  (rnd, layers ++ [layer_record name err]).

(** The body of the handler once the generator is seeded. *)
Definition sensitivity_layers (rnd : rng) : list pyval :=
  let layers := [] in
  let '(num_layers, rnd) := randint 6 12 rnd in
  snd (fold_left sensitivity_step (range 1 (num_layers + 1)) (rnd, layers)).

Definition get_sensitivity (job_id : str) : pyval :=
  let seed := sensitivity_seed job_id in
  let rnd := Random seed in
  PList (sensitivity_layers rnd).

(** *** [GET /api/jobs/{job_id}/graph] *)

Definition graph_seed (job_id : str) : Z :=
  sum (map ord job_id) * 7.

Definition layer_names : list str :=
  [lit "Input"; lit "Conv_1"; lit "Conv_2"; lit "Pool"; lit "Attn_1";
   lit "Dense"; lit "Output"].

Definition x_start : Z := 50.
Definition y_start : Z := 100.
Definition x_gap : Z := 220.

Definition node_record (node_id lname : str) (fused : bool) (x y : Z)
  : pyval :=
  PDict [(lit "id", PStr node_id);
         (lit "data", PDict [(lit "label", PStr lname);
                             (lit "fused", PBool fused)]);
         (lit "position", PDict [(lit "x", PInt x); (lit "y", PInt y)]);
         (lit "style", PDict [])].

Definition edge_record (edge_id source target : str) : pyval :=
  PDict [(lit "id", PStr edge_id);
         (lit "source", PStr source);
         (lit "target", PStr target);
         (lit "animated", PBool false)].

(** The test ["Conv" in lname and rnd.random() < 0.25]: the draw
    is made only when the left operand holds. *)
Definition fuse_test (lname : str) (rnd : rng) : bool * rng :=
  if contains (lit "Conv") lname
  then let '(r, rnd) := random rnd in
       (Float.ltb r (Float.literal (25 # 100)), rnd)
  else (false, rnd).

(** One turn of the loop over [enumerate(layer_names)]. *)
Definition graph_step (st : rng * list pyval * list pyval)
           (item : Z * str) : rng * list pyval * list pyval :=
  let '(rnd, nodes, edges) := st in
  let '(idx, lname) := item in
  let node_id := lit "n" ++ str_of_int idx in
  let x := x_start + idx * x_gap in
  let y := y_start + (idx mod 2) * 30 in
  let fused := false in
  let '(c, rnd) := fuse_test lname rnd in
  let fused := if c then true else fused in
  let nodes := nodes ++ [node_record node_id lname fused x y] in
  let edges :=
    if 0 <? idx
    then edges ++ [edge_record (lit "e" ++ str_of_int (idx - 1))
                               (lit "n" ++ str_of_int (idx - 1))
                               node_id]
    else edges in
  (rnd, nodes, edges).

(** The loop of the handler, with the generator it leaves behind. *)
Definition graph_loop (rnd : rng) : rng * list pyval * list pyval :=
  fold_left graph_step (enumerate layer_names) (rnd, [], []).

Definition get_graph (job_id : str) : pyval :=
  let seed := graph_seed job_id in
  let rnd := Random seed in
  let '(_, nodes, edges) := graph_loop rnd in
  PDict [(lit "nodes", PList nodes); (lit "edges", PList edges)].

(** The first and the second draw of a generator. *)
Definition draw1 (rnd : rng) : float := fst (random rnd).
Definition draw2 (rnd : rng) : float := fst (random (snd (random rnd))).

End Handlers.

(** *** The seed contract, as the specification words it *)

(** The sum of the character codes of a string. *)
Fixpoint char_code_sum (s : str) : Z :=
  match s with
  | [] => 0
  | c :: s' => ord c + char_code_sum s'
  end.

(** [multiplier * (sum of the character code of every character)] *)
Definition derive_seed (multiplier : Z) (job_id : str) : Z :=
  multiplier * char_code_sum job_id.

(** *** The draws of a layer, as the specification orders them

    Per layer the stream is consumed in this order: the layer type,
    the baseline, the spike test and, only when the test fires, the
    spike magnitude.  Each draw is read off the generator the layer
    starts from. *)

Section LayerDraws.

Context {R : RandomLib}.

Definition layer_type_draw (rnd : rng) : str :=
  fst (choice layer_types rnd).

Definition base_draw (rnd : rng) : float :=
  fst (random (snd (choice layer_types rnd))).

Definition spike_test_draw (rnd : rng) : float :=
  fst (random (snd (random (snd (choice layer_types rnd))))).

Definition spike_draw (rnd : rng) : float :=
  fst (random (snd (random (snd (random (snd (choice layer_types rnd))))))).

(** The spike event: the test draw is below 0.08. *)
Definition spikes (rnd : rng) : bool :=
  Float.ltb (spike_test_draw rnd) (Float.literal (8 # 100)).

(** The error of the layer: the baseline [base_draw * 0.08], plus
    [spike_draw * 0.4] when the spike fires, rounded to 3 places. *)
Definition drawn_error (rnd : rng) : float :=
  if spikes rnd
  then Float.round
         (Float.add (Float.mul (base_draw rnd) (Float.literal (8 # 100)))
                    (Float.mul (spike_draw rnd) (Float.literal (4 # 10)))) 3
  else Float.round (Float.mul (base_draw rnd) (Float.literal (8 # 100))) 3.

(** The generator the next layer starts from: after three draws, or
    after four when the spike fires. *)
Definition after_layer (rnd : rng) : rng :=
  let rnd3 := snd (random (snd (random (snd (choice layer_types rnd))))) in
  if spikes rnd then snd (random rnd3) else rnd3.

(** The generators the first [k] layers start from. *)
Fixpoint layer_starts (rnd : rng) (k : nat) : list rng :=
  match k with
  | O => []
  | S k' => rnd :: layer_starts (after_layer rnd) k'
  end.

(** The record of the layer at position [i] that starts from [rnd]. *)
Definition drawn_record (p : Z * rng) : pyval :=
  layer_record (layer_type_draw (snd p) ++ lit "_" ++ str_of_int (fst p))
               (drawn_error (snd p)).

End LayerDraws.

(** *** What the sensitivity list is made of *)

(** A double of the half-open unit interval. *)
Definition unit_double (r : Q) : Prop :=
  (0 <= r /\ r <= 9007199254740991 # 9007199254740992)%Q.

(** The two ways an [error] is computed from draws of [random()]:
    the rounded baseline, or the rounded sum of the baseline and a
    spike; nothing is applied to the value after the rounding. *)
Inductive draw_formula : float -> Prop :=
| Baseline (r0 : Q) :
    unit_double r0 ->
    draw_formula (Float.round (Float.mul r0 (Float.literal (8 # 100))) 3)
| Spiked (r0 r2 : Q) :
    unit_double r0 -> unit_double r2 ->
    draw_formula
      (Float.round
         (Float.add (Float.mul r0 (Float.literal (8 # 100)))
                    (Float.mul r2 (Float.literal (4 # 10)))) 3).

(** What the record at position [i] of the list looks like: a layer
    name made of a candidate type and the position, and an error from
    one of the two formulas. *)
Definition layer_ok (i : Z) (v : pyval) : Prop :=
  exists t err,
    In t layer_types /\ draw_formula err /\
    v = layer_record (t ++ lit "_" ++ str_of_int i) err.

(** The thousandths [n / 1000] that round to a double in the closed
    interval from 0 to the double [0.48]. *)
Definition milli_ok (n : Z) : bool :=
  Qle_bool 0 (round_b64 (n # 1000)) &&
  Qle_bool (round_b64 (n # 1000)) (Float.literal (48 # 100)).

(** *** Reading a returned graph *)

(** The list stored under a key of a dict. *)
Definition items (k : string) (g : pyval) : list pyval :=
  match get k g with
  | Some (PList l) => l
  | _ => []
  end.

Definition node_label (node : pyval) : option pyval :=
  match get "data" node with
  | Some d => get "label" d
  | None => None
  end.

Definition node_fused (node : pyval) : option pyval :=
  match get "data" node with
  | Some d => get "fused" d
  | None => None
  end.

Definition node_x (node : pyval) : option Z :=
  match get "position" node with
  | Some p => match get "x" p with
              | Some (PInt x) => Some x
              | _ => None
              end
  | None => None
  end.

(** A dict whose keys are exactly [ks] (the keys of a dict are
    distinct, their order is not part of its shape). *)
Definition has_exactly_keys (ks : list string) (v : pyval) : bool :=
  match v with
  | PDict d =>
      (List.length d =? List.length ks)%nat &&
      forallb (fun k => existsb (PyStr.eqb (lit k)) (map fst d)) ks
  | _ => false
  end.

(** The graph with the two flags of the convolution nodes left open:
    what the loop of [get_graph] builds is an instance of it. *)
Definition chain_nodes (f1 f2 : bool) : list pyval :=
  [node_record (lit "n0") (lit "Input") false 50 100;
   node_record (lit "n1") (lit "Conv_1") f1 270 130;
   node_record (lit "n2") (lit "Conv_2") f2 490 100;
   node_record (lit "n3") (lit "Pool") false 710 130;
   node_record (lit "n4") (lit "Attn_1") false 930 100;
   node_record (lit "n5") (lit "Dense") false 1150 130;
   node_record (lit "n6") (lit "Output") false 1370 100].

Definition chain_edges : list pyval :=
  [edge_record (lit "e0") (lit "n0") (lit "n1");
   edge_record (lit "e1") (lit "n1") (lit "n2");
   edge_record (lit "e2") (lit "n2") (lit "n3");
   edge_record (lit "e3") (lit "n3") (lit "n4");
   edge_record (lit "e4") (lit "n4") (lit "n5");
   edge_record (lit "e5") (lit "n5") (lit "n6")].

Definition chain_graph (f1 f2 : bool) : pyval :=
  PDict [(lit "nodes", PList (chain_nodes f1 f2));
         (lit "edges", PList chain_edges)].

(** Overwriting the [fused] flag of the nodes labelled [Conv_1] and
    [Conv_2], every other binding of the graph kept as it is. *)
Definition set_key (k : str) (f : pyval -> pyval) (d : list (str * pyval))
  : list (str * pyval) :=
  map (fun kv => if PyStr.eqb (fst kv) k then (fst kv, f (snd kv)) else kv) d.

Definition on_dict (f : list (str * pyval) -> list (str * pyval))
           (v : pyval) : pyval :=
  match v with
  | PDict d => PDict (f d)
  | _ => v
  end.

Definition on_list (f : pyval -> pyval) (v : pyval) : pyval :=
  match v with
  | PList l => PList (map f l)
  | _ => v
  end.

Definition is_conv_node (node : pyval) : bool :=
  match node_label node with
  | Some (PStr l) => PyStr.eqb l (lit "Conv_1") || PyStr.eqb l (lit "Conv_2")
  | _ => false
  end.

Definition mask_conv_fused (g : pyval) : pyval :=
  on_dict
    (set_key (lit "nodes")
       (on_list (fun node =>
          if is_conv_node node
          then on_dict
                 (set_key (lit "data")
                    (on_dict (set_key (lit "fused")
                                      (fun _ => PBool false)))) node
          else node))) g.

(** *** [POST /api/upload] *)

(** What the handler reads of an uploaded part. *)
Record UploadFile : Type := {
  filename : option str;
  content_type : option str
}.

Definition of_optional (o : option str) : pyval :=
  match o with
  | Some s => PStr s
  | None => PNone
  end.

Definition upload (file : UploadFile) (calibration_file : option UploadFile)
           (metadata : option str) : pyval :=
  let file_info :=
    PDict [(lit "filename", of_optional (filename file));
           (lit "content_type", of_optional (content_type file))] in
  let calib_info := PNone in
  let calib_info :=
    match calibration_file with
    | Some c =>
        PDict [(lit "filename", of_optional (filename c));
               (lit "content_type", of_optional (content_type c))]
    | None => calib_info
    end in
  PDict [(lit "status", PStr (lit "ok"));
         (lit "file", file_info);
         (lit "calibration_file", calib_info);
         (lit "metadata", of_optional metadata)].

(** The parts of a multipart form, by field name: a file part under
    [file] and under [calibration_file], a text under [metadata], each
    once or not at all.  The signature of [upload] declares [file]
    with [File(...)] (required) and the other two with the default
    [None]: a form without [file] is refused with status 422 before
    the handler runs, an omitted optional field is passed as [None],
    and so is a text sent with an empty value, which the framework
    replaces by the default of the parameter. *)
Record UploadForm : Type := {
  form_file : option UploadFile;
  form_calibration_file : option UploadFile;
  form_metadata : option str
}.

(** What the handler receives for an optional text field. *)
Definition bound_text (sent : option str) : option str :=
  match sent with
  | Some [] => None
  | _ => sent
  end.

Inductive response : Type :=
| Ok (body : pyval)
| ValidationError.

Definition upload_endpoint (form : UploadForm) : response :=
  match form_file form with
  | Some file =>
      Ok (upload file (form_calibration_file form)
                 (bound_text (form_metadata form)))
  | None => ValidationError
  end.

(** *** [GET /api/hardware-matrix] *)

Definition hardware_option (name : string) (cost : Q) (throughput : Z)
  : pyval :=
  PDict [(lit "name", PStr (lit name));
         (lit "cost_per_hour", PFloat (Float.literal cost));
         (lit "throughput_tokens_s", PInt throughput)].

Definition get_hardware_matrix : pyval :=
  let options :=
    [hardware_option "cpu-small" (10 # 100) 20;
     hardware_option "cpu-large" (50 # 100) 60;
     hardware_option "gpu-v100" (240 # 100) 400;
     hardware_option "gpu-a10" (180 # 100) 320;
     hardware_option "tpu-small" (320 # 100) 600;
     hardware_option "edge-rt" (75 # 100) 150] in
  PList options.

(** *** Reading nested results *)

(** The elements of a returned list. *)
Definition elements (v : pyval) : list pyval :=
  match v with
  | PList l => l
  | _ => []
  end.

(** [v[k1][k2]...] *)
Fixpoint get_path (ks : list string) (v : pyval) : option pyval :=
  match ks with
  | [] => Some v
  | k :: ks' => match get k v with
                | Some v' => get_path ks' v'
                | None => None
                end
  end.

Definition option_cost (v : pyval) : option float :=
  match get "cost_per_hour" v with
  | Some (PFloat x) => Some x
  | _ => None
  end.

Definition option_throughput (v : pyval) : option Z :=
  match get "throughput_tokens_s" v with
  | Some (PInt t) => Some t
  | _ => None
  end.

(** *** Reading a decimal back *)

Definition unlit (s : str) : string :=
  string_of_list_ascii (map ascii_of_N s).

(** [int(s)] on a string of decimal digits with an optional minus
    sign, leading zeros allowed. *)
Definition int_of_str (s : str) : option Z :=
  option_map Z.of_int (NilZero.int_of_string (unlit s)).

(** A layer name for position [i]: a candidate type, an underscore
    and the position. *)
Definition layer_name_ok (i : Z) (name : str) : Prop :=
  exists t, In t layer_types /\ name = t ++ lit "_" ++ str_of_int i.

(** The thousandths [n / 1000] that round to a double no larger than
    the double [0.08]. *)
Definition milli_base_ok (n : Z) : bool :=
  Qle_bool (round_b64 (n # 1000)) (Float.literal (8 # 100)).

(** ** The calibration samples of [generate_test_files.py] *)

(** [f"{i:0<width>d}"]: the sign, then zeros up to the width, then
    the digits. *)
Definition format_d (width : nat) (i : Z) : str :=
  let sign := if i <? 0 then lit "-" else [] in
  let digits := str_of_int (Z.abs i) in
  sign ++ repeat 48%N (width - List.length sign - List.length digits)
       ++ digits.

(** [x - y] on doubles, and the double of an [int] that is one. *)
Definition fsub (x y : float) : float := round_b64 (x - y).
Definition float_of_int (i : Z) : float := round_b64 (inject_Z i).

(** The dict built in the turn [i] of the loop over [range(100)]. *)
Definition calibration_sample (i : Z) : pyval :=
  PDict
    [(lit "id", PStr (lit "sample_" ++ format_d 4 i));
     (lit "input",
      PDict [(lit "shape", PList [PInt 1; PInt 3; PInt 32; PInt 32]);
             (lit "dtype", PStr (lit "float32"));
             (lit "min",
              PFloat (Float.add (Float.literal (-1))
                        (Float.mul (float_of_int (i mod 5))
                                   (Float.literal (1 # 10)))));
             (lit "max",
              PFloat (fsub (Float.literal 1)
                        (Float.mul (float_of_int (i mod 5))
                                   (Float.literal (1 # 10)))))]);
     (lit "output",
      PDict [(lit "shape", PList [PInt 1; PInt 10]);
             (lit "dtype", PStr (lit "float32"));
             (lit "class", PInt (i mod 10))]);
     (lit "metadata",
      PDict [(lit "dataset", PStr (lit "ImageNet"));
             (lit "augmentation", PBool (i mod 2 =? 0));
             (lit "timestamp",
              PStr (lit "2024-12-05T10:" ++ format_d 2 i ++ lit ":00Z"))])].

(** The samples in the order they are written, one per line. *)
Definition calibration_samples : list pyval :=
  map calibration_sample (range 0 100).

(** The four decimal digits of a number below 10000, zeros
    included. *)
Definition digit_char (d : Z) : char := Z.to_N (48 + d).

Definition four_digits (i : Z) : str :=
  map digit_char [i / 1000 mod 10; i / 100 mod 10; i / 10 mod 10; i mod 10].

Definition id_is_padded (i : Z) : bool :=
  PyStr.eqb (format_d 4 i) (four_digits i).

(** The minute field of the timestamp of a sample: the two characters
    after [2024-12-05T10:], read as a decimal. *)
Definition timestamp_minute (v : pyval) : option Z :=
  match get_path ["metadata"; "timestamp"]%string v with
  | Some (PStr s) => int_of_str (firstn 2 (skipn 14 s))
  | _ => None
  end.

Definition minute_is (i : Z) : bool :=
  match timestamp_minute (calibration_sample i) with
  | Some m => m =? i
  | None => false
  end.

(** A minute that no clock shows. *)
Definition off_the_clock (v : pyval) : bool :=
  match timestamp_minute v with
  | Some m => 60 <=? m
  | None => false
  end.

Definition has_class (c : Z) (v : pyval) : bool :=
  match get_path ["output"; "class"]%string v with
  | Some (PInt k) => k =? c
  | _ => false
  end.

Definition is_augmented (v : pyval) : bool :=
  match get_path ["metadata"; "augmentation"]%string v with
  | Some (PBool b) => b
  | _ => false
  end.

(** ** A reference generator

    A 64-bit linear congruential generator that meets the contract of
    [RandomLib]; it stands in for the library's generator wherever a
    concrete run is wanted. *)

Module Lcg.

Definition next (s : Z) : Z :=
  (s * 6364136223846793005 + 1442695040888963407) mod 2 ^ 64.

Definition random (s : Z) : float * Z :=
  let s' := next s in (Qred (s' / 2 ^ 11 # 2 ^ 53), s').

Definition randint (a b s : Z) : Z * Z :=
  let s' := next s in (a + (s' / 2 ^ 32) mod (b - a + 1), s').

Definition choice (l : list str) (s : Z) : str * Z :=
  let s' := next s in
  (nth (Z.to_nat ((s' / 2 ^ 32) mod Z.of_nat (List.length l))) l [], s').

End Lcg.

#[export, refine] Instance LcgRandom : RandomLib := {
  rng := Z;
  Random := fun seed => seed;
  random := Lcg.random;
  randint := Lcg.randint;
  choice := Lcg.choice
}.
Proof.
  - intros s. unfold Lcg.random; cbn [fst].
    assert (0 <= Lcg.next s < 2 ^ 64) as Hs
        by (apply Z.mod_pos_bound; reflexivity).
    assert (0 <= Lcg.next s / 2 ^ 11 < 2 ^ 53) as Hk.
    { split; [apply Z.div_pos; lia|].
      apply Z.div_lt_upper_bound; [reflexivity|].
      change (2 ^ 11 * 2 ^ 53) with (2 ^ 64). lia. }
    rewrite Qred_correct. unfold Qle; cbn [Qnum Qden].
    change (Z.pos (2 ^ 53)) with (2 ^ 53).
    change (Z.pos 9007199254740992) with (2 ^ 53).
    change 9007199254740991 with (2 ^ 53 - 1). nia.
  - intros a b s Hab. unfold Lcg.randint; cbn [fst].
    pose proof (Z.mod_pos_bound (Lcg.next s / 2 ^ 32) (b - a + 1)). lia.
  - intros l s Hl. unfold Lcg.choice; cbn [fst]. apply nth_In.
    assert (0 < Z.of_nat (List.length l)) as Hlen
        by (destruct l; [congruence | cbn [List.length]; lia]).
    pose proof (Z.mod_pos_bound (Lcg.next s / 2 ^ 32) _ Hlen). lia.
Defined.

(** ** The arithmetic on known values *)

Lemma str_eqb_eq (s t : str) : PyStr.eqb s t = true <-> s = t.
Proof.
  revert t; induction s as [|a s IH]; intros [|b t]; simpl;
    try (split; [discriminate | discriminate]); try tauto.
  unfold char_eqb. rewrite andb_true_iff, N.eqb_eq, IH.
  split; [intros [-> ->]; reflexivity | intros E; inversion E; auto].
Qed.

(** [0.1 + 0.2] is [0.30000000000000004]. *)
Example add_tenth_fifth :
  Float.add (Float.literal (1 # 10)) (Float.literal (2 # 10))
  = (1351079888211149 # 4503599627370496)%Q.
Proof. vm_compute. reflexivity. Qed.

(** [round(0.0625, 3)] is [0.062]: the tie goes to the even digit. *)
Example round_tie_to_even :
  Float.round (1 # 16) 3 = Float.literal (62 # 1000).
Proof. vm_compute. reflexivity. Qed.

(** [round(0.0005, 3)] is [0.001]: the double [0.0005] lies above
    the decimal, so this is no tie. *)
Example round_above_half :
  Float.round (Float.literal (5 # 10000)) 3 = Float.literal (1 # 1000).
Proof. vm_compute. reflexivity. Qed.

(** With the largest draws the spiked formula gives the double
    [0.48]. *)
Example largest_error :
  let top := (9007199254740991 # 9007199254740992)%Q in
  Float.round
    (Float.add (Float.mul top (Float.literal (8 # 100)))
               (Float.mul top (Float.literal (4 # 10)))) 3
  = Float.literal (48 # 100).
Proof. vm_compute. reflexivity. Qed.

(** The doubles written [0.08], [0.4] and [0.48] in decimal. *)
Lemma literal_0_08 :
  Float.literal (8 # 100) = (5764607523034235 # 72057594037927936)%Q.
Proof. vm_compute. reflexivity. Qed.

Lemma literal_0_4 :
  Float.literal (4 # 10) = (3602879701896397 # 9007199254740992)%Q.
Proof. vm_compute. reflexivity. Qed.

Lemma literal_0_48 :
  Float.literal (48 # 100) = (1080863910568919 # 2251799813685248)%Q.
Proof. vm_compute. reflexivity. Qed.

(** ** Facts about the rounding functions *)

Section RoundingFacts.

Lemma rne_div_near (a b : Z) :
  0 < b -> 2 * a - b <= 2 * (rne_div a b * b) <= 2 * a + b.
Proof.
  intros Hb. unfold rne_div; cbv zeta.
  pose proof (Z.div_mod a b ltac:(lia)) as Hdiv.
  pose proof (Z.mod_pos_bound a b Hb) as Hmod.
  set (q := a / b) in *. set (r := a mod b) in *. clearbody q r. subst a.
  destruct (2 * r ?= b) eqn:Hc.
  - apply Z.compare_eq in Hc. destruct (Z.even q); nia.
  - rewrite Z.compare_lt_iff in Hc. nia.
  - rewrite Z.compare_gt_iff in Hc. nia.
Qed.

Lemma rne_div_nonneg (a b : Z) : 0 <= a -> 0 < b -> 0 <= rne_div a b.
Proof.
  intros Ha Hb. pose proof (rne_div_near a b Hb). nia.
Qed.

(** Below the midpoint above [c], the quotient rounds to at most [c]. *)
Lemma rne_div_le (a b c : Z) :
  0 < b -> 2 * a < (2 * c + 1) * b -> rne_div a b <= c.
Proof.
  intros Hb Ha. pose proof (rne_div_near a b Hb). nia.
Qed.

Lemma ilog2_lt (p q j : Z) :
  0 < p -> 0 < q -> j <= 0 -> p * 2 ^ (- j) < q -> ilog2 p q < j.
Proof.
  intros Hp Hq Hj Hlt. unfold ilog2.
  assert (- j + Z.log2 p <= Z.log2 q) as Hl.
  { rewrite <- Z.log2_mul_pow2 by lia. apply Z.log2_le_mono. lia. }
  set (l := Z.log2 p - Z.log2 q) in *.
  assert (l <= j) as Hlj by (subst l; lia).
  destruct (Z.eq_dec l j) as [E|NE].
  - rewrite E. destruct (0 <=? j) eqn:H0.
    + apply Z.leb_le in H0. assert (j = 0) as -> by lia.
      change (2 ^ (- 0)) with 1 in Hlt. change (2 ^ 0) with 1.
      destruct (q * 1 <=? p) eqn:H1; [apply Z.leb_le in H1|]; lia.
    + destruct (q <=? p * 2 ^ (- j)) eqn:H1; [apply Z.leb_le in H1|]; lia.
  - destruct (if 0 <=? l then q * 2 ^ l <=? p else q <=? p * 2 ^ (- l)); lia.
Qed.

Lemma ilog2_ge (p q j : Z) :
  0 < p -> 0 < q -> j <= 0 -> q <= p * 2 ^ (- j) -> j <= ilog2 p q.
Proof.
  intros Hp Hq Hj Hle. unfold ilog2.
  assert (Z.log2 q <= - j + Z.log2 p) as Hl.
  { rewrite <- Z.log2_mul_pow2 by lia. apply Z.log2_le_mono. lia. }
  set (l := Z.log2 p - Z.log2 q) in *.
  assert (j <= l) as Hlj by (subst l; lia).
  destruct (Z.eq_dec l j) as [E|NE].
  - rewrite E. destruct (0 <=? j) eqn:H0.
    + apply Z.leb_le in H0. assert (j = 0) as -> by lia.
      change (2 ^ (- 0)) with 1 in Hle. change (2 ^ 0) with 1.
      destruct (q * 1 <=? p) eqn:H1; [|apply Z.leb_gt in H1]; lia.
    + destruct (q <=? p * 2 ^ (- j)) eqn:H1; [|apply Z.leb_gt in H1]; lia.
  - destruct (if 0 <=? l then q * 2 ^ l <=? p else q <=? p * 2 ^ (- l)); lia.
Qed.

(** The shape of [round_b64] on a positive rational below [2^j],
    [j <= 0]: the quotient is scaled by [2^E], where [E] is [53 - j]
    in the binade just below [2^j] and larger further down. *)
Lemma round_b64_form (p : Z) (q : positive) (j : Z) :
  0 < p -> -1021 <= j <= 0 -> p * 2 ^ (- j) < Zpos q ->
  exists E,
    53 - j <= E <= 1074 /\
    (53 - j < E -> p * 2 ^ (1 - j) < Zpos q) /\
    round_b64 (p # q) =
      Qred (rne_div (p * 2 ^ E) (Zpos q) # Z.to_pos (2 ^ E)).
Proof.
  intros Hp Hj Hlt. unfold round_b64; cbn [Qnum Qden].
  destruct (p =? 0) eqn:Hp0; [apply Z.eqb_eq in Hp0; lia|].
  rewrite (Z.abs_eq p) by lia. rewrite (Z.sgn_pos p) by lia.
  pose proof (ilog2_lt p (Zpos q) j Hp ltac:(lia) ltac:(lia) Hlt) as HL.
  set (L := ilog2 p (Zpos q)) in *.
  set (e := Z.max (L - 52) (-1074)).
  assert (e <= j - 53 /\ -1074 <= e) as [He1 He2] by (subst e; lia).
  destruct (0 <=? e) eqn:H0; [apply Z.leb_le in H0; lia|].
  exists (- e). split; [lia|]. split.
  - intros Hbig.
    destruct (Z_lt_le_dec (p * 2 ^ (1 - j)) (Zpos q)) as [Hlow|Hhigh]; [exact Hlow|].
    exfalso.
    pose proof (ilog2_ge p (Zpos q) (j - 1) Hp ltac:(lia) ltac:(lia)) as HG.
    replace (- (j - 1)) with (1 - j) in HG by lia.
    specialize (HG Hhigh). fold L in HG. subst e. lia.
  - rewrite Z.mul_1_l. reflexivity.
Qed.

Lemma pow2_split (k E : Z) :
  0 <= k <= E -> 2 ^ E = 2 ^ k * 2 ^ (E - k) /\ 0 < 2 ^ k /\ 0 < 2 ^ (E - k).
Proof.
  intros H. rewrite <- Z.pow_add_r by lia.
  replace (k + (E - k)) with E by lia.
  repeat split; apply Z.pow_pos_nonneg; lia.
Qed.

(** The rounded quotient is within half a unit of the exact one. *)
Lemma scaled_rne_upper (p q T E : Z) :
  0 < q -> 0 <= T <= E ->
  rne_div (p * 2 ^ E) q * q * 2 ^ (T + 1) <= (p * 2 ^ (T + 1) + q) * 2 ^ E.
Proof.
  intros Hq HT.
  pose proof (rne_div_near (p * 2 ^ E) q Hq) as [_ Hm].
  destruct (pow2_split T E HT) as (HW & HK & HD).
  rewrite Z.pow_add_r by lia. change (2 ^ 1) with 2.
  set (m := rne_div (p * 2 ^ E) q) in *.
  set (W := 2 ^ E) in *. set (K := 2 ^ T) in *. set (D := 2 ^ (E - T)) in *.
  clearbody m W K D. subst W.
  assert (2 * (m * q) * K <= (2 * (p * (K * D)) + q) * K) as H1
      by (apply Z.mul_le_mono_nonneg_r; lia).
  assert (q * K <= q * (K * D)) as H2 by nia.
  nia.
Qed.

(** Below the midpoint above [M / 2^k], and with [M / 2^k] on the
    grid of the binade of [p / q], the rounded quotient is at most
    [M / 2^k]. *)
Lemma scaled_rne_cap (p q M E k : Z) :
  0 < q -> 0 <= p -> 0 <= k <= E ->
  p * 2 ^ (k + 1) < (2 * M + 1) * q ->
  (k < E -> p * 2 ^ k <= M * q) ->
  rne_div (p * 2 ^ E) q * 2 ^ k <= M * 2 ^ E.
Proof.
  intros Hq Hp Hk Hmid Hlow.
  destruct (pow2_split k E Hk) as (HW & HK & HD).
  rewrite Z.pow_add_r in Hmid by lia. change (2 ^ 1) with 2 in Hmid.
  rewrite HW.
  set (K := 2 ^ k) in *. set (D := 2 ^ (E - k)) in *.
  assert (rne_div (p * (K * D)) q <= M * D) as Hm.
  { apply rne_div_le; [assumption|].
    destruct (Z.eq_dec k E) as [->|NE].
    - subst D. rewrite Z.sub_diag. change (2 ^ 0) with 1. nia.
    - specialize (Hlow ltac:(lia)).
      assert (p * K * D <= M * q * D) as H1
          by (apply Z.mul_le_mono_nonneg_r; lia).
      nia. }
  clearbody K D. nia.
Qed.

Lemma pos_pow2 (n : Z) : 0 <= n -> Zpos (Z.to_pos (2 ^ n)) = 2 ^ n.
Proof.
  intros Hn. apply Z2Pos.id. apply Z.pow_pos_nonneg; lia.
Qed.

Lemma round_b64_nonneg (x : Q) :
  (0 <= x)%Q -> (x < 1)%Q -> (0 <= round_b64 x)%Q.
Proof.
  destruct x as [p q]. intros Hp Hlt.
  unfold Qle, Qlt in Hp, Hlt; cbn [Qnum Qden] in Hp, Hlt.
  rewrite Z.mul_1_r in Hp, Hlt. rewrite Z.mul_1_l in Hlt.
  destruct (Z.eq_dec p 0) as [->|Hnz]; [discriminate|].
  destruct (round_b64_form p q 0 ltac:(lia) ltac:(lia)) as (E & HE & _ & ->).
  { change (2 ^ (- 0)) with 1. lia. }
  rewrite Qred_correct. unfold Qle; cbn [Qnum Qden].
  pose proof (rne_div_nonneg (p * 2 ^ E) (Zpos q)) as Hm.
  assert (0 < 2 ^ E) by (apply Z.pow_pos_nonneg; lia).
  specialize (Hm ltac:(nia) ltac:(lia)). lia.
Qed.

(** Absolute error: below [2^-n] the rounded value exceeds the
    exact one by at most [2^-(54+n)], half a unit in the last place
    of the top binade. *)
Lemma round_b64_upper (x : Q) (n : Z) :
  0 <= n <= 1021 ->
  (0 <= x)%Q -> (x * inject_Z (2 ^ n) < 1)%Q ->
  (round_b64 x <= x + (1 # Z.to_pos (2 ^ (54 + n))))%Q.
Proof.
  intros Hn. destruct x as [p q].
  unfold Qle, Qlt, Qmult, Qplus, inject_Z; cbn [Qnum Qden].
  rewrite !Z.mul_1_r, !Z.mul_1_l, Pos.mul_1_r, Pos2Z.inj_mul.
  rewrite pos_pow2 by lia. intros Hp Hlt.
  assert (0 < 2 ^ (54 + n)) as H54 by (apply Z.pow_pos_nonneg; lia).
  destruct (Z.eq_dec p 0) as [->|Hnz].
  { change (round_b64 (0 # q)) with 0%Q. cbn [Qnum Qden]. lia. }
  destruct (round_b64_form p q (- n) ltac:(lia) ltac:(lia)) as (E & HE & _ & ->).
  { rewrite Z.opp_involutive. exact Hlt. }
  pose proof (Qred_correct (rne_div (p * 2 ^ E) (Z.pos q) # Z.to_pos (2 ^ E))) as Hred.
  unfold Qeq in Hred; cbn [Qnum Qden] in Hred.
  rewrite pos_pow2 in Hred by lia.
  set (y := Qred _) in *.
  pose proof (scaled_rne_upper p (Zpos q) (53 + n) E ltac:(lia) ltac:(lia)) as Hup.
  replace (53 + n + 1) with (54 + n) in Hup by lia.
  set (m := rne_div (p * 2 ^ E) (Z.pos q)) in *.
  assert (0 < 2 ^ E) as HW by (apply Z.pow_pos_nonneg; lia).
  assert (0 < QDen y) as Hy by lia.
  (* y = m / 2^E *)
  apply (Z.mul_le_mono_pos_r _ _ (2 ^ E) HW).
  replace (Qnum y * (Z.pos q * 2 ^ (54 + n)) * 2 ^ E)
    with (Qnum y * 2 ^ E * (Z.pos q * 2 ^ (54 + n))) by ring.
  rewrite Hred.
  replace (m * QDen y * (Z.pos q * 2 ^ (54 + n)))
    with (m * Z.pos q * 2 ^ (54 + n) * QDen y) by ring.
  replace ((p * 2 ^ (54 + n) + Z.pos q) * QDen y * 2 ^ E)
    with ((p * 2 ^ (54 + n) + Z.pos q) * 2 ^ E * QDen y) by ring.
  apply Z.mul_le_mono_nonneg_r; lia.
Qed.

(** A cap: [M / 2^(53+n)] is a double of the binade just below
    [2^-n]; whatever lies below the midpoint above it rounds to at
    most that double. *)
Lemma round_b64_cap (x : Q) (n M : Z) :
  0 <= n <= 1021 -> 2 ^ 52 <= M < 2 ^ 53 ->
  (0 <= x)%Q -> (x * inject_Z (2 ^ (54 + n)) < inject_Z (2 * M + 1))%Q ->
  (round_b64 x <= M # Z.to_pos (2 ^ (53 + n)))%Q.
Proof.
  intros Hn HM. destruct x as [p q].
  unfold Qle, Qlt, Qmult, inject_Z; cbn [Qnum Qden].
  rewrite !Z.mul_1_r, Pos.mul_1_r, pos_pow2 by lia. intros Hp Hmid.
  rewrite Z.mul_0_l in Hp.
  assert (0 < 2 ^ (53 + n)) as H53 by (apply Z.pow_pos_nonneg; lia).
  destruct (Z.eq_dec p 0) as [->|Hnz].
  { change (round_b64 (0 # q)) with 0%Q. cbn [Qnum Qden]. nia. }
  assert (0 < 2 ^ n) as Hpn by (apply Z.pow_pos_nonneg; lia).
  assert (p * 2 ^ n < Z.pos q) as Hlt.
  { rewrite Z.pow_add_r in Hmid by lia.
    change (2 ^ 54) with 18014398509481984 in Hmid.
    change (2 ^ 53) with 9007199254740992 in HM. nia. }
  destruct (round_b64_form p q (- n) ltac:(lia) ltac:(lia))
    as (E & HE & Hlow & ->).
  { rewrite Z.opp_involutive. exact Hlt. }
  pose proof (Qred_correct (rne_div (p * 2 ^ E) (Z.pos q) # Z.to_pos (2 ^ E))) as Hred.
  unfold Qeq in Hred; cbn [Qnum Qden] in Hred.
  rewrite pos_pow2 in Hred by lia.
  set (y := Qred _) in *.
  pose proof (scaled_rne_cap p (Zpos q) M E (53 + n)
                ltac:(lia) ltac:(lia) ltac:(lia)) as Hcap.
  replace (53 + n + 1) with (54 + n) in Hcap by lia.
  specialize (Hcap Hmid).
  assert (rne_div (p * 2 ^ E) (Z.pos q) * 2 ^ (53 + n) <= M * 2 ^ E) as Hm.
  { apply Hcap. intros HkE.
    replace (1 - - n) with (1 + n) in Hlow by lia.
    specialize (Hlow ltac:(lia)).
    replace (53 + n) with (52 + (1 + n)) by lia.
    rewrite Z.pow_add_r by lia.
    assert (0 < 2 ^ (1 + n)) by (apply Z.pow_pos_nonneg; lia).
    change (2 ^ 52) with 4503599627370496 in *. nia. }
  set (m := rne_div (p * 2 ^ E) (Z.pos q)) in *.
  assert (0 < 2 ^ E) as HW by (apply Z.pow_pos_nonneg; lia).
  assert (0 < QDen y) as Hy by lia.
  apply (Z.mul_le_mono_pos_r _ _ (2 ^ E) HW).
  replace (Qnum y * 2 ^ (53 + n) * 2 ^ E)
    with (Qnum y * 2 ^ E * 2 ^ (53 + n)) by ring.
  rewrite Hred.
  replace (m * QDen y * 2 ^ (53 + n))
    with (m * 2 ^ (53 + n) * QDen y) by ring.
  replace (M * QDen y * 2 ^ E) with (M * 2 ^ E * QDen y) by ring.
  apply Z.mul_le_mono_nonneg_r; lia.
Qed.

End RoundingFacts.

(** ** Bounds on the draws of the sensitivity list *)

Lemma base_bounds (r : Q) :
  unit_double r ->
  (0 <= Float.mul r (Float.literal (8 # 100)) /\
   Float.mul r (Float.literal (8 # 100)) <= 5764607523034234 # 72057594037927936)%Q.
Proof.
  intros [H0 H1]. unfold Float.mul. rewrite literal_0_08.
  split.
  - apply round_b64_nonneg; lra.
  - apply (round_b64_cap _ 3 5764607523034234); [lia | split; vm_compute; congruence | lra |].
    change (inject_Z (2 ^ (54 + 3))) with (144115188075855872 # 1)%Q.
    change (inject_Z (2 * 5764607523034234 + 1)) with (11529215046068469 # 1)%Q.
    lra.
Qed.

Lemma spike_bounds (r : Q) :
  unit_double r ->
  (0 <= Float.mul r (Float.literal (4 # 10)) /\
   Float.mul r (Float.literal (4 # 10)) <= 7205759403792793 # 18014398509481984)%Q.
Proof.
  intros [H0 H1]. unfold Float.mul. rewrite literal_0_4.
  split.
  - apply round_b64_nonneg; lra.
  - apply (round_b64_cap _ 1 7205759403792793); [lia | split; vm_compute; congruence | lra |].
    change (inject_Z (2 ^ (54 + 1))) with (36028797018963968 # 1)%Q.
    change (inject_Z (2 * 7205759403792793 + 1)) with (14411518807585587 # 1)%Q.
    lra.
Qed.

Lemma spiked_bounds (b s : Q) :
  (0 <= b /\ b <= 5764607523034234 # 72057594037927936)%Q ->
  (0 <= s /\ s <= 7205759403792793 # 18014398509481984)%Q ->
  (0 <= Float.add b s /\ Float.add b s < 4801 # 10000)%Q.
Proof.
  intros [Hb0 Hb1] [Hs0 Hs1]. unfold Float.add. split.
  - apply round_b64_nonneg; lra.
  - pose proof (round_b64_upper (b + s) 1 ltac:(lia) ltac:(lra)) as Hup.
    change (inject_Z (2 ^ 1)) with (2 # 1)%Q in Hup.
    change (Z.to_pos (2 ^ (54 + 1))) with 36028797018963968%positive in Hup.
    specialize (Hup ltac:(lra)). lra.
Qed.

(** [round(v, 3)] of a value below 0.4805 is the double nearest to a
    number of thousandths between 0 and 480. *)
Lemma round3_milli (v : Q) :
  (0 <= v)%Q -> (v < 4805 # 10000)%Q ->
  exists n, 0 <= n <= 480 /\ Float.round v 3 = round_b64 (n # 1000).
Proof.
  destruct v as [p q]. unfold Qle, Qlt; cbn [Qnum Qden]. intros H0 H1.
  unfold Float.round; cbn [Qnum Qden].
  change (10 ^ 3) with 1000. change (Z.to_pos 1000) with 1000%positive.
  exists (rne_div (p * 1000) (Zpos q)). split; [|reflexivity].
  split.
  - apply rne_div_nonneg; lia.
  - apply rne_div_le; lia.
Qed.

Lemma In_range (a b n : Z) : a <= n < b -> In n (range a b).
Proof.
  intros H. unfold range. apply in_map_iff.
  exists (Z.to_nat (n - a)). split; [lia|].
  apply in_seq. lia.
Qed.

Lemma length_range (a b : Z) : List.length (range a b) = Z.to_nat (b - a).
Proof. unfold range. rewrite length_map, length_seq. reflexivity. Qed.

Lemma milli_ok_all : forallb milli_ok (range 0 481) = true.
Proof. vm_compute. reflexivity. Qed.

Lemma milli_bounds (n : Z) :
  0 <= n <= 480 ->
  (0 <= round_b64 (n # 1000) /\
   round_b64 (n # 1000) <= Float.literal (48 # 100))%Q.
Proof.
  intros Hn. pose proof milli_ok_all as Hall.
  rewrite forallb_forall in Hall.
  specialize (Hall n (In_range 0 481 n ltac:(lia))).
  unfold milli_ok in Hall. apply andb_true_iff in Hall as [H1 H2].
  apply Qle_bool_iff in H1, H2. split; assumption.
Qed.

(** Either formula yields a double between 0 and the double [0.48]. *)
Lemma draw_formula_bounds (err : float) :
  draw_formula err ->
  (0 <= err /\ err <= Float.literal (48 # 100))%Q.
Proof.
  intros [r0 H0 | r0 r2 H0 H2].
  - destruct (base_bounds r0 H0) as [Hb0 Hb1].
    destruct (round3_milli _ Hb0 ltac:(lra)) as (n & Hn & ->).
    apply milli_bounds; assumption.
  - pose proof (spiked_bounds _ _ (base_bounds r0 H0) (spike_bounds r2 H2))
      as [Hv0 Hv1].
    destruct (round3_milli _ Hv0 ltac:(lra)) as (n & Hn & ->).
    apply milli_bounds; assumption.
Qed.

(** ** The seed *)

Lemma fold_add_shift (xs : list Z) (a : Z) :
  fold_left Z.add xs a = a + fold_left Z.add xs 0.
Proof.
  revert a; induction xs as [|x xs IH]; intros a; cbn [fold_left].
  - lia.
  - rewrite (IH (a + x)), (IH (0 + x)). lia.
Qed.

Lemma sum_ord (s : str) : sum (map ord s) = char_code_sum s.
Proof.
  unfold sum. induction s as [|c s IH]; cbn [map fold_left char_code_sum].
  - reflexivity.
  - rewrite fold_add_shift, IH. lia.
Qed.

(** C2. For every identifier, the empty one included, the seed of the
    sensitivity handler is 1 times, and the seed of the graph handler
    7 times, the sum of the character codes of the identifier; the
    empty identifier has seed 0 in both. *)
Theorem seed_is_multiplier_times_code_sum (job_id : str) :
  sensitivity_seed job_id = derive_seed 1 job_id /\
  graph_seed job_id = derive_seed 7 job_id /\
  sensitivity_seed [] = 0 /\ graph_seed [] = 0.
Proof.
  unfold sensitivity_seed, graph_seed, derive_seed.
  rewrite sum_ord. repeat split; lia.
Qed.

(** C7. When the character codes of an identifier do not sum to zero,
    the seed of the sensitivity handler and the seed of the graph
    handler are different integers. *)
Theorem seeds_differ (job_id : str) :
  char_code_sum job_id <> 0 ->
  sensitivity_seed job_id <> graph_seed job_id.
Proof.
  intros Hnz. unfold sensitivity_seed, graph_seed.
  rewrite sum_ord. lia.
Qed.

Lemma seeds_differ_witness :
  char_code_sum (lit "abc") <> 0 /\
  sensitivity_seed (lit "abc") <> graph_seed (lit "abc").
Proof.
  assert (char_code_sum (lit "abc") <> 0) as H by (vm_compute; discriminate).
  split; [exact H | exact (seeds_differ (lit "abc") H)].
Defined.

(** ** The sensitivity list *)

Section Sensitivity.

Context {R : RandomLib}.

Lemma random_unit (rnd : rng) : unit_double (fst (random rnd)).
Proof. exact (random_range rnd). Qed.

Lemma sensitivity_step_appends (st : rng * list pyval) (i : Z) :
  exists v, layer_ok i v /\
            snd (sensitivity_step st i) = snd st ++ [v].
Proof.
  destruct st as [rnd layers]. unfold sensitivity_step.
  pose proof (choice_In layer_types rnd ltac:(discriminate)) as Hc.
  destruct (choice layer_types rnd) as [t rnd1]. cbn [fst] in Hc.
  pose proof (random_unit rnd1) as H0.
  destruct (random rnd1) as [r0 rnd2]. cbn [fst] in H0.
  destruct (random rnd2) as [r1 rnd3].
  destruct (Float.ltb r1 (Float.literal (8 # 100))).
  - pose proof (random_unit rnd3) as H2.
    destruct (random rnd3) as [r2 rnd4]. cbn [fst snd] in *.
    eexists. split; [|reflexivity].
    exists t. eexists. split; [exact Hc|]. split; [|reflexivity].
    apply Spiked; assumption.
  - cbn [snd]. eexists. split; [|reflexivity].
    exists t. eexists. split; [exact Hc|]. split; [|reflexivity].
    apply Baseline; assumption.
Qed.

(** The loop appends one record per index, in the order of the
    indices. *)
Lemma sensitivity_loop_appends (idxs : list Z) (st : rng * list pyval) :
  exists recs,
    snd (fold_left sensitivity_step idxs st) = snd st ++ recs /\
    Forall2 layer_ok idxs recs.
Proof.
  revert st. induction idxs as [|i idxs IH]; intros st; cbn [fold_left].
  - exists []. rewrite app_nil_r. split; [reflexivity | constructor].
  - destruct (sensitivity_step_appends st i) as (v & Hv & Hst).
    destruct (IH (sensitivity_step st i)) as (recs & Hrecs & Hall).
    exists (v :: recs). split.
    + rewrite Hrecs, Hst, <- app_assoc. reflexivity.
    + constructor; assumption.
Qed.

Lemma sensitivity_layers_spec (rnd : rng) :
  exists n,
    6 <= n <= 12 /\
    Forall2 layer_ok (range 1 (n + 1)) (sensitivity_layers rnd).
Proof.
  unfold sensitivity_layers.
  pose proof (randint_range 6 12 rnd ltac:(lia)) as Hn.
  destruct (randint 6 12 rnd) as [n rnd1]. cbn [fst] in Hn.
  exists n. split; [exact Hn|].
  destruct (sensitivity_loop_appends (range 1 (n + 1)) (rnd1, []))
    as (recs & -> & Hall).
  exact Hall.
Qed.

Lemma Forall2_right {A B} (P : A -> B -> Prop) (Q : B -> Prop)
      (xs : list A) (ys : list B) :
  (forall x y, P x y -> Q y) -> Forall2 P xs ys -> Forall Q ys.
Proof.
  intros HPQ H. induction H; constructor; eauto.
Qed.

Lemma snd_combine {A B} (xs : list A) (ys : list B) :
  List.length xs = List.length ys -> map snd (combine xs ys) = ys.
Proof.
  revert ys. induction xs as [|x xs IH]; intros [|y ys] H;
    cbn in *; try discriminate; [reflexivity|].
  rewrite IH by congruence. reflexivity.
Qed.

Lemma sensitivity_step_eq (rnd : rng) (layers : list pyval) (i : Z) :
  sensitivity_step (rnd, layers) i =
    (after_layer rnd, layers ++ [drawn_record (i, rnd)]).
Proof.
  unfold sensitivity_step, after_layer, drawn_record, drawn_error, spikes,
    layer_type_draw, base_draw, spike_test_draw, spike_draw.
  cbn [fst snd].
  destruct (choice layer_types rnd) as [t rnd1]. cbn [fst snd].
  destruct (random rnd1) as [r0 rnd2]. cbn [fst snd].
  destruct (random rnd2) as [r1 rnd3]. cbn [fst snd].
  destruct (Float.ltb r1 (Float.literal (8 # 100))).
  - destruct (random rnd3) as [r2 rnd4]. reflexivity.
  - reflexivity.
Qed.

Lemma sensitivity_loop_eq (idxs : list Z) (rnd : rng) (layers : list pyval) :
  snd (fold_left sensitivity_step idxs (rnd, layers)) =
    layers ++ map drawn_record
                  (combine idxs (layer_starts rnd (List.length idxs))).
Proof.
  revert rnd layers. induction idxs as [|i idxs IH]; intros rnd layers.
  - cbn. rewrite app_nil_r. reflexivity.
  - cbn [fold_left List.length layer_starts combine map].
    rewrite sensitivity_step_eq, IH, <- app_assoc. reflexivity.
Qed.

(** C3. For every identifier the sensitivity list has between 6 and
    12 records, as many as [randint(6, 12)] returns on the seeded
    generator, and the error of every record lies between 0 and 1 and
    is the value of one of the two draw formulas, the rounded
    baseline or the rounded baseline plus spike.  The list is, record
    by record, what the draws of the generator give: the record at
    position [i] carries the drawn type with [i], and as its error the
    formula on the baseline, spike test and spike draws of its layer,
    with nothing applied after it. *)
Theorem sensitivity_length_and_error_range (job_id : str) :
  exists layers,
    get_sensitivity job_id = PList layers /\
    6 <= Z.of_nat (List.length layers) <= 12 /\
    Forall (fun v => exists name err,
                v = layer_record name err /\
                (0 <= err /\ err <= 1)%Q /\
                draw_formula err) layers /\
    let seeded := randint 6 12 (Random (sensitivity_seed job_id)) in
    let starts := layer_starts (snd seeded) (Z.to_nat (fst seeded)) in
    Z.of_nat (List.length layers) = fst seeded /\
    layers = map drawn_record (combine (range 1 (fst seeded + 1)) starts) /\
    map (get "error") layers =
      map (fun rnd => Some (PFloat (drawn_error rnd))) starts.
Proof.
  unfold get_sensitivity.
  destruct (sensitivity_layers_spec (Random (sensitivity_seed job_id)))
    as (n & Hn & Hall).
  eexists. split; [reflexivity|]. split; [|split].
  - rewrite <- (Forall2_length Hall), length_range. lia.
  - apply (Forall2_right layer_ok _ _ _) with (2 := Hall).
    intros i v (t & err & _ & Hf & ->).
    exists (t ++ lit "_" ++ str_of_int i), err.
    split; [reflexivity|]. split; [|exact Hf].
    destruct (draw_formula_bounds err Hf) as [H0 H1].
    rewrite literal_0_48 in H1. lra.
  - cbv zeta. clear n Hn Hall. unfold sensitivity_layers.
    pose proof (randint_range 6 12 (Random (sensitivity_seed job_id))
                  ltac:(lia)) as Hn.
    destruct (randint 6 12 (Random (sensitivity_seed job_id)))
      as [n rnd1]. cbn [fst snd] in *.
    rewrite sensitivity_loop_eq, length_range. cbn [app].
    replace (n + 1 - 1) with n by lia.
    assert (List.length (layer_starts rnd1 (Z.to_nat n)) = Z.to_nat n)
      as Hlen.
    { generalize (Z.to_nat n). intros k. revert rnd1.
      induction k as [|k IH]; intros rnd1; cbn; [reflexivity|].
      rewrite IH. reflexivity. }
    assert (List.length (range 1 (n + 1)) = Z.to_nat n) as Hlen'
        by (rewrite length_range; f_equal; lia).
    split; [|split].
    + rewrite length_map, length_combine, Hlen, Hlen'. lia.
    + reflexivity.
    + rewrite map_map.
      rewrite <- (snd_combine (range 1 (n + 1))
                    (layer_starts rnd1 (Z.to_nat n))) at 2
        by congruence.
      rewrite map_map. apply map_ext. intros [i rnd]. reflexivity.
Qed.

(** C9. The baseline [random() * 0.08] is strictly below 0.08, the
    spike addend [random() * 0.4] strictly below 0.4, and for every
    identifier every error of the sensitivity list is at most 0.48,
    both as a real number and in the comparison of doubles. *)
Theorem sensitivity_error_at_most_0_48 (job_id : str) :
  (forall r, unit_double r ->
             (Float.mul r (Float.literal (8 # 100)) < 8 # 100)%Q) /\
  (forall r, unit_double r ->
             (Float.mul r (Float.literal (4 # 10)) < 4 # 10)%Q) /\
  exists layers,
    get_sensitivity job_id = PList layers /\
    Forall (fun v => exists err,
                get "error" v = Some (PFloat err) /\
                (err <= 48 # 100)%Q /\
                Float.ltb (Float.literal (48 # 100)) err = false) layers.
Proof.
  split; [|split].
  - intros r Hr. destruct (base_bounds r Hr) as [_ H]. lra.
  - intros r Hr. destruct (spike_bounds r Hr) as [_ H]. lra.
  - unfold get_sensitivity.
    destruct (sensitivity_layers_spec (Random (sensitivity_seed job_id)))
      as (n & Hn & Hall).
    eexists. split; [reflexivity|].
    apply (Forall2_right layer_ok _ _ _) with (2 := Hall).
    intros i v (t & err & _ & Hf & ->).
    exists err. split; [reflexivity|].
    destruct (draw_formula_bounds err Hf) as [H0 H1].
    split.
    + rewrite literal_0_48 in H1. lra.
    + unfold Float.ltb. apply Z.ltb_ge.
      unfold Qle in H1. lia.
Qed.

(** C1. For every identifier [S] and multiplier [m], two runs of the
    sensitivity generator, each on a generator seeded with [m] times
    the character-code sum of [S], return the same list: the same
    length, the same layer names in the same order and the same
    error values. *)
Theorem sensitivity_deterministic (S : str) (m : Z) (rnd1 rnd2 : rng) :
  rnd1 = Random (derive_seed m S) ->
  rnd2 = Random (derive_seed m S) ->
  get_sensitivity S = PList (sensitivity_layers (Random (derive_seed 1 S))) /\
  List.length (sensitivity_layers rnd1) =
    List.length (sensitivity_layers rnd2) /\
  map (get "layer") (sensitivity_layers rnd1) =
    map (get "layer") (sensitivity_layers rnd2) /\
  map (get "error") (sensitivity_layers rnd1) =
    map (get "error") (sensitivity_layers rnd2) /\
  sensitivity_layers rnd1 = sensitivity_layers rnd2.
Proof.
  intros -> ->. split; [|repeat split].
  unfold get_sensitivity, sensitivity_seed, derive_seed.
  rewrite sum_ord, Z.mul_1_l. reflexivity.
Qed.

End Sensitivity.

(** ** The graph *)

Lemma literal_0_25 : Float.literal (25 # 100) = (1 # 4)%Q.
Proof. vm_compute. reflexivity. Qed.

Lemma ltb_quarter (r : float) :
  Float.ltb r (Float.literal (25 # 100)) = true <-> (r < 1 # 4)%Q.
Proof.
  rewrite literal_0_25. unfold Float.ltb, Qlt. apply Z.ltb_lt.
Qed.

Section Graph.

Context {R : RandomLib}.

Lemma fuse_test_eq (lname : str) (rnd : rng) :
  fuse_test lname rnd =
    if contains (lit "Conv") lname
    then (Float.ltb (fst (random rnd)) (Float.literal (25 # 100)),
          snd (random rnd))
    else (false, rnd).
Proof.
  unfold fuse_test. destruct (contains (lit "Conv") lname); [|reflexivity].
  destruct (random rnd); reflexivity.
Qed.

Lemma graph_step_eq (rnd : rng) (nodes edges : list pyval) (idx : Z)
      (lname : str) :
  graph_step (rnd, nodes, edges) (idx, lname) =
    (snd (fuse_test lname rnd),
     nodes ++ [node_record (lit "n" ++ str_of_int idx) lname
                           (fst (fuse_test lname rnd))
                           (x_start + idx * x_gap)
                           (y_start + (idx mod 2) * 30)],
     if 0 <? idx
     then edges ++ [edge_record (lit "e" ++ str_of_int (idx - 1))
                                (lit "n" ++ str_of_int (idx - 1))
                                (lit "n" ++ str_of_int idx)]
     else edges).
Proof.
  unfold graph_step.
  destruct (fuse_test lname rnd) as [[|] rnd']; reflexivity.
Qed.

Lemma graph_loop_eq (rnd : rng) :
  graph_loop rnd =
    (snd (random (snd (random rnd))),
     chain_nodes (Float.ltb (draw1 rnd) (Float.literal (25 # 100)))
                 (Float.ltb (draw2 rnd) (Float.literal (25 # 100))),
     chain_edges).
Proof.
  unfold graph_loop, draw1, draw2.
  change (enumerate layer_names) with
    [(0, lit "Input"); (1, lit "Conv_1"); (2, lit "Conv_2");
     (3, lit "Pool"); (4, lit "Attn_1"); (5, lit "Dense");
     (6, lit "Output")].
  cbn [fold_left]. rewrite !graph_step_eq, !fuse_test_eq.
  reflexivity.
Qed.

Lemma get_graph_eq (job_id : str) :
  get_graph job_id =
    chain_graph
      (Float.ltb (draw1 (Random (graph_seed job_id)))
                 (Float.literal (25 # 100)))
      (Float.ltb (draw2 (Random (graph_seed job_id)))
                 (Float.literal (25 # 100))).
Proof.
  unfold get_graph. rewrite graph_loop_eq. reflexivity.
Qed.

(** C4. For every identifier the graph has exactly 7 nodes, labelled
    by the catalog in its order and named [n0] to [n6]; exactly 6
    edges, the i-th going from node i to node i+1, a single chain
    from [n0] to [n6]; and x-coordinates that increase strictly
    with the index. *)
Theorem graph_shape (job_id : str) :
  let nodes := items "nodes" (get_graph job_id) in
  let edges := items "edges" (get_graph job_id) in
  List.length nodes = 7%nat /\
  map node_label nodes = map (fun l => Some (PStr l)) layer_names /\
  map (get "id") nodes =
    map (fun i => Some (PStr (lit "n" ++ str_of_int i))) (range 0 7) /\
  List.length edges = 6%nat /\
  map (get "source") edges = removelast (map (get "id") nodes) /\
  map (get "target") edges = tl (map (get "id") nodes) /\
  exists xs, map node_x nodes = map Some xs /\ StronglySorted Z.lt xs.
Proof.
  cbv zeta. rewrite get_graph_eq.
  repeat (split; [reflexivity|]).
  exists [50; 270; 490; 710; 930; 1150; 1370].
  split; [reflexivity|].
  repeat (constructor; [|repeat (constructor; [lia|]); constructor]).
  constructor.
Qed.

(** C5. A node whose label contains [Conv] takes one draw of
    [random()] and is fused exactly when the draw is below 0.25; a
    node whose label does not contain [Conv] is not fused and leaves
    the generator as it was.  In the graph of an identifier the two
    convolution nodes take the first and the second draw of the
    seeded generator, and these are the only draws. *)
Theorem fused_follows_the_draw (job_id lname : str) (rnd : rng)
        (nodes edges : list pyval) (idx : Z) :
  (contains (lit "Conv") lname = true ->
   snd (fuse_test lname rnd) = snd (random rnd) /\
   (fst (fuse_test lname rnd) = true <->
    (fst (random rnd) < 1 # 4)%Q)) /\
  (contains (lit "Conv") lname = false ->
   fuse_test lname rnd = (false, rnd)) /\
  (exists node,
     graph_step (rnd, nodes, edges) (idx, lname) =
       (snd (fuse_test lname rnd), nodes ++ [node],
        snd (graph_step (rnd, nodes, edges) (idx, lname))) /\
     node_label node = Some (PStr lname) /\
     node_fused node = Some (PBool (fst (fuse_test lname rnd)))) /\
  map node_fused (items "nodes" (get_graph job_id)) =
    map (fun b => Some (PBool b))
        [false;
         Float.ltb (draw1 (Random (graph_seed job_id)))
                   (Float.literal (25 # 100));
         Float.ltb (draw2 (Random (graph_seed job_id)))
                   (Float.literal (25 # 100));
         false; false; false; false] /\
  fst (fst (graph_loop rnd)) = snd (random (snd (random rnd))).
Proof.
  split; [|split; [|split; [|split]]].
  - intros HC. rewrite fuse_test_eq, HC. cbn [fst snd].
    split; [reflexivity | apply ltb_quarter].
  - intros HC. rewrite fuse_test_eq, HC. reflexivity.
  - rewrite graph_step_eq. eexists.
    split; [reflexivity|]. split; reflexivity.
  - rewrite get_graph_eq. reflexivity.
  - rewrite graph_loop_eq. reflexivity.
Qed.

Lemma chain_node_id (f1 f2 : bool) (k : nat) :
  (k < 7)%nat ->
  In (nth k (chain_nodes f1 f2) PNone) (chain_nodes f1 f2) /\
  get "id" (nth k (chain_nodes f1 f2) PNone) =
    Some (PStr (lit "n" ++ str_of_int (Z.of_nat k))).
Proof.
  intros Hk.
  do 7 (destruct k as [|k]; [split; [cbn; tauto | reflexivity]|]). lia.
Qed.

Lemma chain_edge_ends (k : nat) :
  (k < 6)%nat ->
  get "source" (nth k chain_edges PNone) =
    Some (PStr (lit "n" ++ str_of_int (Z.of_nat k))) /\
  get "target" (nth k chain_edges PNone) =
    Some (PStr (lit "n" ++ str_of_int (Z.of_nat (S k)))).
Proof.
  intros Hk.
  do 6 (destruct k as [|k]; [split; reflexivity|]). lia.
Qed.

(** C6, as the code has it.  Every edge of the graph has exactly the
    keys [id], [source], [target] and [animated]; [animated] is
    false, [id] is a string, and [source] and [target] are ids of
    nodes of the returned node list. *)
Theorem graph_edges_shape (job_id : str) :
  let nodes := items "nodes" (get_graph job_id) in
  Forall (fun e =>
            has_exactly_keys ["id"; "source"; "target"; "animated"]%string e
              = true /\
            get "animated" e = Some (PBool false) /\
            (exists i, get "id" e = Some (PStr i)) /\
            (exists src node, get "source" e = Some (PStr src) /\
               In node nodes /\ get "id" node = Some (PStr src)) /\
            (exists tgt node, get "target" e = Some (PStr tgt) /\
               In node nodes /\ get "id" node = Some (PStr tgt)))
         (items "edges" (get_graph job_id)).
Proof.
  cbv zeta. rewrite get_graph_eq.
  set (f1 := Float.ltb _ _). set (f2 := Float.ltb _ _).
  change (items "edges" (chain_graph f1 f2)) with chain_edges.
  change (items "nodes" (chain_graph f1 f2)) with (chain_nodes f1 f2).
  assert (forall k, (k < 6)%nat ->
            let e := nth k chain_edges PNone in
            has_exactly_keys ["id"; "source"; "target"; "animated"]%string e
              = true /\
            get "animated" e = Some (PBool false) /\
            (exists i, get "id" e = Some (PStr i)) /\
            (exists src node, get "source" e = Some (PStr src) /\
               In node (chain_nodes f1 f2) /\
               get "id" node = Some (PStr src)) /\
            (exists tgt node, get "target" e = Some (PStr tgt) /\
               In node (chain_nodes f1 f2) /\
               get "id" node = Some (PStr tgt))) as Hk.
  { intros k Hlt e.
    split; [|split; [|split; [|split]]].
    - do 6 (destruct k as [|k]; [reflexivity|]). lia.
    - do 6 (destruct k as [|k]; [reflexivity|]). lia.
    - do 6 (destruct k as [|k]; [eexists; reflexivity|]). lia.
    - exists (lit "n" ++ str_of_int (Z.of_nat k)).
      exists (nth k (chain_nodes f1 f2) PNone).
      destruct (chain_edge_ends k Hlt) as [Hs _].
      destruct (chain_node_id f1 f2 k ltac:(lia)) as [Hin Hid].
      auto.
    - exists (lit "n" ++ str_of_int (Z.of_nat (S k))).
      exists (nth (S k) (chain_nodes f1 f2) PNone).
      destruct (chain_edge_ends k Hlt) as [_ Ht].
      destruct (chain_node_id f1 f2 (S k) ltac:(lia)) as [Hin Hid].
      auto. }
  apply Forall_forall. intros e He.
  destruct (In_nth _ _ PNone He) as (k & Hlt & <-).
  apply Hk. exact Hlt.
Qed.

(** C10. The graphs of two identifiers agree once the [fused] flags
    of the nodes labelled [Conv_1] and [Conv_2] are masked: every
    graph is the fixed chain with these two flags filled in, so the
    node ids, labels, positions, styles and the edge list are the
    same for all identifiers. *)
Theorem graph_independent_of_identifier (job1 job2 : str) :
  mask_conv_fused (get_graph job1) = mask_conv_fused (get_graph job2) /\
  (exists a b, get_graph job1 = chain_graph a b) /\
  (exists a b, get_graph job2 = chain_graph a b) /\
  (forall a b, mask_conv_fused (chain_graph a b) = chain_graph false false) /\
  items "edges" (get_graph job1) = items "edges" (get_graph job2) /\
  (forall k, In k ["id"; "position"; "style"]%string ->
             map (get k) (items "nodes" (get_graph job1)) =
             map (get k) (items "nodes" (get_graph job2))) /\
  map node_label (items "nodes" (get_graph job1)) =
    map node_label (items "nodes" (get_graph job2)).
Proof.
  rewrite !get_graph_eq.
  split; [reflexivity|].
  split; [eexists; eexists; reflexivity|].
  split; [eexists; eexists; reflexivity|].
  split; [intros a b; reflexivity|].
  split; [reflexivity|].
  split; [|reflexivity].
  intros k Hk. cbn [In] in Hk.
  destruct Hk as [<-|[<-|[<-|[]]]]; reflexivity.
Qed.

End Graph.

(** ** The upload echo *)

(** C8. A form that carries the required file and neither the
    calibration file nor the metadata is answered, not refused, and
    the answer has [None] under [calibration_file] and under
    [metadata], next to the status and the echo of the file. *)
Theorem upload_without_optional_fields (file : UploadFile) :
  let form := {| form_file := Some file;
                 form_calibration_file := None;
                 form_metadata := None |} in
  upload_endpoint form = Ok (upload file None None) /\
  get "calibration_file" (upload file None None) = Some PNone /\
  get "metadata" (upload file None None) = Some PNone /\
  get "status" (upload file None None) = Some (PStr (lit "ok")) /\
  get "file" (upload file None None) =
    Some (PDict [(lit "filename", of_optional (filename file));
                 (lit "content_type", of_optional (content_type file))]) /\
  has_exactly_keys ["status"; "file"; "calibration_file"; "metadata"]%string
                   (upload file None None) = true.
Proof.
  cbv zeta. repeat split.
Qed.

(** ** Runs on the reference generator *)

Lemma sensitivity_deterministic_witness :
  let seed := derive_seed 1 (lit "abc") in
  seed = 294 /\
  List.length (@sensitivity_layers LcgRandom seed) =
    List.length (@sensitivity_layers LcgRandom seed) /\
  @sensitivity_layers LcgRandom seed = @sensitivity_layers LcgRandom seed.
Proof.
  cbv zeta. split; [reflexivity|].
  pose proof (@sensitivity_deterministic LcgRandom (lit "abc") 1
                (derive_seed 1 (lit "abc")) (derive_seed 1 (lit "abc"))
                eq_refl eq_refl) as (_ & Hlen & _ & _ & Heq).
  split; [exact Hlen | exact Heq].
Defined.

Lemma sensitivity_length_and_error_range_witness :
  exists layers,
    @get_sensitivity LcgRandom (lit "abc") = PList layers /\
    6 <= Z.of_nat (List.length layers) <= 12.
Proof.
  destruct (@sensitivity_length_and_error_range LcgRandom (lit "abc"))
    as (layers & Hrun & Hlen & _).
  exists layers. split; assumption.
Defined.

Lemma sensitivity_error_at_most_0_48_witness :
  exists layers,
    @get_sensitivity LcgRandom (lit "abc") = PList layers /\
    Forall (fun v => exists err,
                get "error" v = Some (PFloat err) /\
                (err <= 48 # 100)%Q /\
                Float.ltb (Float.literal (48 # 100)) err = false) layers.
Proof.
  exact (proj2 (proj2 (@sensitivity_error_at_most_0_48 LcgRandom (lit "abc")))).
Defined.

Lemma graph_shape_witness :
  List.length (items "nodes" (@get_graph LcgRandom (lit "abc"))) = 7%nat /\
  List.length (items "edges" (@get_graph LcgRandom (lit "abc"))) = 6%nat.
Proof.
  pose proof (@graph_shape LcgRandom (lit "abc")) as H. cbv zeta in H.
  destruct H as (Hn & _ & _ & He & _). split; assumption.
Defined.

Lemma fused_follows_the_draw_witness :
  contains (lit "Conv") (lit "Conv_1") = true /\
  contains (lit "Conv") (lit "Pool") = false /\
  snd (@fuse_test LcgRandom (lit "Conv_1") 2058) = snd (Lcg.random 2058) /\
  @fuse_test LcgRandom (lit "Pool") 2058 = (false, 2058).
Proof.
  assert (contains (lit "Conv") (lit "Conv_1") = true) as H1 by reflexivity.
  assert (contains (lit "Conv") (lit "Pool") = false) as H2 by reflexivity.
  split; [exact H1|]. split; [exact H2|]. split.
  - destruct (@fused_follows_the_draw LcgRandom (lit "abc") (lit "Conv_1")
                2058 [] [] 1) as (Hconv & _).
    exact (proj1 (Hconv H1)).
  - destruct (@fused_follows_the_draw LcgRandom (lit "abc") (lit "Pool")
                2058 [] [] 3) as (_ & Hother & _).
    exact (Hother H2).
Defined.

Lemma graph_edges_shape_witness :
  Forall (fun e =>
            has_exactly_keys ["id"; "source"; "target"; "animated"]%string e
              = true /\
            get "animated" e = Some (PBool false))
         (items "edges" (@get_graph LcgRandom (lit "abc"))).
Proof.
  pose proof (@graph_edges_shape LcgRandom (lit "abc")) as H. cbv zeta in H.
  apply (Forall_impl _ (fun e He => conj (proj1 He) (proj1 (proj2 He))) H).
Defined.

Lemma graph_independent_of_identifier_witness :
  mask_conv_fused (@get_graph LcgRandom (lit "abc")) =
  mask_conv_fused (@get_graph LcgRandom (lit "test-1")).
Proof.
  exact (proj1 (@graph_independent_of_identifier LcgRandom
                  (lit "abc") (lit "test-1"))).
Defined.

(** On the reference generator the graphs of [abc] and [a] differ, in
    the flags of the convolution nodes. *)
Example graphs_can_differ :
  map node_fused (items "nodes" (@get_graph LcgRandom (lit "abc"))) =
    map (fun b => Some (PBool b)) [false; true; true; false; false; false; false] /\
  map node_fused (items "nodes" (@get_graph LcgRandom (lit "a"))) =
    map (fun b => Some (PBool b)) [false; false; false; false; false; false; false].
Proof. split; vm_compute; reflexivity. Qed.

(** C6, as the specification words it, fails: the first edge of the
    graph of [abc] has a fourth key, [animated]. *)
Lemma edge_shape_counterexample :
  exists e,
    nth_error (items "edges" (@get_graph LcgRandom (lit "abc"))) 0 = Some e /\
    has_exactly_keys ["id"; "source"; "target"]%string e = false /\
    keys e = [lit "id"; lit "source"; lit "target"; lit "animated"].
Proof.
  eexists. split; [vm_compute; reflexivity|]. split; reflexivity.
Qed.

(** * Further properties of the handlers and of the samples *)

(** ** Decimals read back *)

Lemma unlit_lit (s : string) : unlit (lit s) = s.
Proof.
  unfold unlit, lit. rewrite map_map.
  rewrite (map_ext _ (fun a => a)) by (intros a; apply ascii_N_embedding).
  rewrite map_id. apply string_of_list_ascii_of_string.
Qed.

Lemma to_int_not_nil (i : Z) :
  Z.to_int i <> Decimal.Pos Decimal.Nil /\ Z.to_int i <> Decimal.Neg Decimal.Nil.
Proof.
  destruct i as [|p|p]; cbn; split; try discriminate;
    intros [= H]; revert H; apply DecimalPos.Unsigned.to_uint_nonnil.
Qed.

Lemma int_of_str_of_int (i : Z) : int_of_str (str_of_int i) = Some i.
Proof.
  unfold int_of_str, str_of_int. rewrite unlit_lit.
  destruct (to_int_not_nil i) as [H1 H2].
  rewrite NilZero.isi by assumption. cbn [option_map].
  rewrite DecimalZ.of_to. reflexivity.
Qed.

Lemma str_of_int_inj (i j : Z) : str_of_int i = str_of_int j -> i = j.
Proof.
  intros H. apply (f_equal int_of_str) in H.
  rewrite !int_of_str_of_int in H. congruence.
Qed.

(** ** Layer names *)

Lemma layer_name_inj (t1 t2 : str) (i j : Z) :
  In t1 layer_types -> In t2 layer_types ->
  t1 ++ lit "_" ++ str_of_int i = t2 ++ lit "_" ++ str_of_int j ->
  t1 = t2 /\ i = j.
Proof.
  unfold layer_types. cbn [In].
  intros [<-|[<-|[<-|[<-|[]]]]] [<-|[<-|[<-|[<-|[]]]]] H;
    try (exfalso; cbn in H; discriminate H);
    (split; [reflexivity|]);
    apply app_inv_head in H; apply app_inv_head in H;
    apply str_of_int_inj; exact H.
Qed.

Lemma nth_error_range (a b : Z) (k : nat) (x : Z) :
  nth_error (range a b) k = Some x -> x = a + Z.of_nat k.
Proof.
  unfold range. rewrite nth_error_map.
  destruct (nth_error (seq 0 (Z.to_nat (b - a))) k) as [m|] eqn:E;
    [|discriminate].
  cbn [option_map]. intros [= <-].
  assert (k < List.length (seq 0 (Z.to_nat (b - a))))%nat as Hk
      by (apply nth_error_Some; congruence).
  rewrite length_seq in Hk.
  rewrite nth_error_nth' with (d := 0%nat) in E by (rewrite length_seq; lia).
  rewrite seq_nth in E by lia. injection E as <-. reflexivity.
Qed.

Lemma NoDup_range (a b : Z) : NoDup (range a b).
Proof.
  unfold range. apply Finite.Injective_map_NoDup; [|apply seq_NoDup].
  intros x y H. lia.
Qed.

Lemma Forall2_nth_error_r {A B} (P : A -> B -> Prop) xs ys k y :
  Forall2 P xs ys -> nth_error ys k = Some y ->
  exists x, nth_error xs k = Some x /\ P x y.
Proof.
  intros H. revert k. induction H as [|x0 y0 xs ys Hxy H IH]; intros k Hk.
  - destruct k; discriminate.
  - destruct k as [|k]; cbn in *.
    + injection Hk as <-. eauto.
    + apply IH; assumption.
Qed.

Lemma Forall2_In_r {A B} (P : A -> B -> Prop) xs ys y :
  Forall2 P xs ys -> In y ys -> exists x, In x xs /\ P x y.
Proof.
  intros H. induction H as [|x0 y0 xs ys Hxy H IH]; intros Hin.
  - destruct Hin.
  - destruct Hin as [<-|Hin].
    + exists x0. split; [left; reflexivity | assumption].
    + destruct (IH Hin) as (x & Hx & HP). exists x. split; [right|]; assumption.
Qed.

Lemma layer_names_of (idxs : list Z) (recs : list pyval) :
  Forall2 layer_ok idxs recs ->
  exists names,
    map (get "layer") recs = map (fun n => Some (PStr n)) names /\
    Forall2 layer_name_ok idxs names.
Proof.
  intros H. induction H as [|i v idxs recs Hv H IH].
  - exists []. split; [reflexivity | constructor].
  - destruct IH as (names & Hmap & Hall).
    destruct Hv as (t & err & Ht & _ & ->).
    exists ((t ++ lit "_" ++ str_of_int i) :: names). split.
    + cbn [map]. rewrite Hmap. reflexivity.
    + constructor; [exists t; auto | assumption].
Qed.

Lemma layer_names_NoDup (idxs : list Z) (names : list str) :
  Forall2 layer_name_ok idxs names -> NoDup idxs -> NoDup names.
Proof.
  intros H. induction H as [|i n idxs names Hn H IH]; intros Hnd.
  - constructor.
  - inversion Hnd as [|? ? Hnotin Hnd']; subst. constructor; [|auto].
    intros Hin.
    destruct (Forall2_In_r _ _ _ _ H Hin) as (j & Hj & (t2 & Ht2 & E2)).
    destruct Hn as (t1 & Ht1 & E1).
    destruct (layer_name_inj t1 t2 i j Ht1 Ht2) as [_ <-]; [congruence|].
    contradiction.
Qed.

Section SensitivityRecords.

Context {R : RandomLib}.

(** X1. In the sensitivity list of every identifier the record at
    position [k] (from 0) is named by one of the four layer types, an
    underscore and [k + 1]; no two records of a list have the same
    name. *)
Theorem sensitivity_layer_names (job_id : str) :
  exists layers names,
    get_sensitivity job_id = PList layers /\
    map (get "layer") layers = map (fun n => Some (PStr n)) names /\
    (forall k name, nth_error names k = Some name ->
       exists t, In t layer_types /\
                 name = t ++ lit "_" ++ str_of_int (Z.of_nat k + 1)) /\
    NoDup names.
Proof.
  unfold get_sensitivity.
  destruct (sensitivity_layers_spec (Random (sensitivity_seed job_id)))
    as (n & Hn & Hall).
  destruct (layer_names_of _ _ Hall) as (names & Hmap & Hnames).
  eexists. exists names. split; [reflexivity|]. split; [exact Hmap|]. split.
  - intros k name Hk.
    destruct (Forall2_nth_error_r _ _ _ _ _ Hnames Hk) as (i & Hi & Hok).
    apply nth_error_range in Hi. subst i.
    replace (Z.of_nat k + 1) with (1 + Z.of_nat k) by lia. exact Hok.
  - apply (layer_names_NoDup _ _ Hnames). apply NoDup_range.
Qed.

Lemma milli_base_ok_all : forallb milli_base_ok (range 0 81) = true.
Proof. vm_compute. reflexivity. Qed.

Lemma draw_formula_milli (err : float) :
  draw_formula err ->
  exists n, 0 <= n <= 480 /\ err = Float.literal (n # 1000).
Proof.
  intros [r0 H0 | r0 r2 H0 H2].
  - destruct (base_bounds r0 H0) as [Hb0 Hb1].
    destruct (round3_milli _ Hb0 ltac:(lra)) as (n & Hn & ->).
    exists n. split; [assumption | reflexivity].
  - pose proof (spiked_bounds _ _ (base_bounds r0 H0) (spike_bounds r2 H2))
      as [Hv0 Hv1].
    destruct (round3_milli _ Hv0 ltac:(lra)) as (n & Hn & ->).
    exists n. split; [assumption | reflexivity].
Qed.

Lemma baseline_milli (r0 : Q) :
  unit_double r0 ->
  exists n, 0 <= n <= 80 /\
    Float.round (Float.mul r0 (Float.literal (8 # 100))) 3
      = Float.literal (n # 1000).
Proof.
  intros H0. destruct (base_bounds r0 H0) as [Hb0 Hb1].
  set (b := Float.mul r0 (Float.literal (8 # 100))) in *.
  destruct b as [p q]. unfold Qle in Hb0, Hb1; cbn [Qnum Qden] in Hb0, Hb1.
  unfold Float.round; cbn [Qnum Qden].
  change (10 ^ 3) with 1000. change (Z.to_pos 1000) with 1000%positive.
  exists (rne_div (p * 1000) (Zpos q)). split; [|reflexivity].
  split.
  - apply rne_div_nonneg; lia.
  - apply rne_div_le; lia.
Qed.

(** X2. Every record of a sensitivity list has exactly the keys
    [layer] and [error], a string under [layer], and under [error]
    the double nearest to a whole number of thousandths between 0
    and 480. *)
Theorem sensitivity_errors_are_thousandths (job_id : str) :
  exists layers,
    get_sensitivity job_id = PList layers /\
    Forall (fun v =>
              has_exactly_keys ["layer"; "error"]%string v = true /\
              (exists name, get "layer" v = Some (PStr name)) /\
              exists n, 0 <= n <= 480 /\
                get "error" v = Some (PFloat (Float.literal (n # 1000))))
           layers.
Proof.
  unfold get_sensitivity.
  destruct (sensitivity_layers_spec (Random (sensitivity_seed job_id)))
    as (n & Hn & Hall).
  eexists. split; [reflexivity|].
  apply (Forall2_right layer_ok _ _ _) with (2 := Hall).
  intros i v (t & err & _ & Hf & ->).
  split; [reflexivity|]. split; [eexists; reflexivity|].
  destruct (draw_formula_milli err Hf) as (m & Hm & ->).
  exists m. split; [assumption | reflexivity].
Qed.

(** X3. A turn of the loop whose spike test fails (the second draw of
    [random()] is not below 0.08) takes one choice and two draws and
    no more, and appends a record whose error is a number of
    thousandths between 0 and 80, at most the double [0.08]. *)
Theorem unspiked_layer_error (rnd : rng) (layers : list pyval) (i : Z) :
  let rnd1 := snd (choice layer_types rnd) in
  let rnd2 := snd (random rnd1) in
  let rnd3 := snd (random rnd2) in
  Float.ltb (fst (random rnd2)) (Float.literal (8 # 100)) = false ->
  exists name n,
    sensitivity_step (rnd, layers) i =
      (rnd3, layers ++ [layer_record name (Float.literal (n # 1000))]) /\
    0 <= n <= 80 /\
    (Float.literal (n # 1000) <= Float.literal (8 # 100))%Q.
Proof.
  cbv zeta. unfold sensitivity_step.
  destruct (choice layer_types rnd) as [t rnd1]. cbn [snd].
  pose proof (random_unit rnd1) as H0.
  destruct (random rnd1) as [r0 rnd2]. cbn [fst snd] in *.
  destruct (random rnd2) as [r1 rnd3]. cbn [fst snd].
  intros ->.
  destruct (baseline_milli r0 H0) as (n & Hn & ->).
  eexists. exists n. split; [reflexivity|]. split; [assumption|].
  pose proof milli_base_ok_all as Hall. rewrite forallb_forall in Hall.
  specialize (Hall n (In_range 0 81 n ltac:(lia))).
  apply Qle_bool_iff in Hall. exact Hall.
Qed.

End SensitivityRecords.

(** ** Seeds and collisions *)

Lemma char_code_sum_app (s t : str) :
  char_code_sum (s ++ t) = char_code_sum s + char_code_sum t.
Proof.
  induction s as [|c s IH]; cbn [app char_code_sum]; lia.
Qed.

Lemma char_code_sum_perm (s t : str) :
  Permutation s t -> char_code_sum s = char_code_sum t.
Proof.
  intros H. induction H; cbn [char_code_sum]; lia.
Qed.

Lemma char_code_sum_nonneg (s : str) : 0 <= char_code_sum s.
Proof.
  induction s as [|c s IH]; cbn [char_code_sum]; unfold ord; lia.
Qed.

Lemma char_code_sum_zero (s : str) :
  char_code_sum s = 0 <-> Forall (fun c => c = 0%N) s.
Proof.
  induction s as [|c s IH]; cbn [char_code_sum].
  - split; [constructor | reflexivity].
  - pose proof (char_code_sum_nonneg s). unfold ord in *. split.
    + intros H0. constructor; [lia | apply IH; lia].
    + intros H0. inversion H0 as [|? ? Hc Hs]; subst. apply IH in Hs. lia.
Qed.

(** X4. Both seeds are additive over concatenation and never
    negative, the graph seed is 7 times the sensitivity seed, and
    rearranging the characters of an identifier changes neither. *)
Theorem seed_algebra (s t : str) :
  sensitivity_seed (s ++ t) = sensitivity_seed s + sensitivity_seed t /\
  graph_seed (s ++ t) = graph_seed s + graph_seed t /\
  0 <= sensitivity_seed s /\ 0 <= graph_seed s /\
  graph_seed s = 7 * sensitivity_seed s /\
  (Permutation s t ->
   sensitivity_seed s = sensitivity_seed t /\ graph_seed s = graph_seed t).
Proof.
  unfold sensitivity_seed, graph_seed. rewrite !sum_ord, char_code_sum_app.
  pose proof (char_code_sum_nonneg s).
  repeat split; try lia.
  - apply char_code_sum_perm in H0. lia.
  - apply char_code_sum_perm in H0. lia.
Qed.

(** X5. The two handlers seed their generators alike exactly when
    every character of the identifier has code 0, the empty
    identifier included. *)
Theorem seeds_coincide_iff_all_nul (job_id : str) :
  sensitivity_seed job_id = graph_seed job_id <->
  Forall (fun c => c = 0%N) job_id.
Proof.
  rewrite <- char_code_sum_zero.
  unfold sensitivity_seed, graph_seed. rewrite sum_ord. lia.
Qed.

Section Collisions.

Context {R : RandomLib}.

(** X6. Two identifiers whose character codes have the same sum get
    the same sensitivity list and the same graph. *)
Theorem equal_code_sums_collide (job1 job2 : str) :
  char_code_sum job1 = char_code_sum job2 ->
  get_sensitivity job1 = get_sensitivity job2 /\
  get_graph job1 = get_graph job2.
Proof.
  intros H. unfold get_sensitivity, get_graph, sensitivity_seed, graph_seed.
  rewrite !sum_ord, H. split; reflexivity.
Qed.

End Collisions.

(** ** The upload echo, in general *)

(** X7. A form without the file is refused.  A form with the file
    is answered with exactly the keys [status], [file],
    [calibration_file] and [metadata]; the status is [ok]; the name
    and content type of the file, and of the calibration file when one
    was sent, are echoed; [calibration_file] is [None] exactly when no
    calibration file was sent; [metadata] is [None] exactly when no
    metadata was sent or it was sent empty, and otherwise it is the
    text that was sent. *)
Theorem upload_echo (form : UploadForm) :
  (form_file form = None -> upload_endpoint form = ValidationError) /\
  (forall file, form_file form = Some file ->
   exists r,
     upload_endpoint form = Ok r /\
     has_exactly_keys
       ["status"; "file"; "calibration_file"; "metadata"]%string r = true /\
     get "status" r = Some (PStr (lit "ok")) /\
     get "file" r =
       Some (PDict [(lit "filename", of_optional (filename file));
                    (lit "content_type", of_optional (content_type file))]) /\
     (get "calibration_file" r = Some PNone <->
      form_calibration_file form = None) /\
     (forall c, form_calibration_file form = Some c ->
        get "calibration_file" r =
          Some (PDict [(lit "filename", of_optional (filename c));
                       (lit "content_type", of_optional (content_type c))])) /\
     (get "metadata" r = Some PNone <->
      form_metadata form = None \/ form_metadata form = Some []) /\
     (forall m, form_metadata form = Some m -> m <> [] ->
        get "metadata" r = Some (PStr m))).
Proof.
  destruct form as [f c m]. unfold upload_endpoint. cbn [form_file
    form_calibration_file form_metadata].
  split; [intros ->; reflexivity|].
  intros file ->. eexists. split; [reflexivity|].
  split; [reflexivity|]. split; [reflexivity|]. split; [reflexivity|].
  split; [|split; [|split]].
  - destruct c; cbn; split; intros H; congruence.
  - intros c' ->. reflexivity.
  - destruct m as [[|a m]|]; cbn; split; intros H;
      try tauto; try congruence.
    destruct H as [H|H]; congruence.
  - intros m' -> Hne. destruct m'; [congruence | reflexivity].
Qed.

(** ** The hardware table *)

(** X8. The hardware table has six options with exactly the keys
    [name], [cost_per_hour] and [throughput_tokens_s] and pairwise
    different names, and no option is dominated: of two options the
    dearer one always has the higher throughput. *)
Theorem hardware_no_option_dominated :
  let options := elements get_hardware_matrix in
  List.length options = 6%nat /\
  Forall (fun v => has_exactly_keys
                     ["name"; "cost_per_hour"; "throughput_tokens_s"]%string v
                   = true) options /\
  NoDup (map (get "name") options) /\
  forall a b ca cb ta tb,
    In a options -> In b options ->
    option_cost a = Some ca -> option_cost b = Some cb ->
    option_throughput a = Some ta -> option_throughput b = Some tb ->
    (ca < cb)%Q -> ta < tb.
Proof.
  cbv zeta. split; [reflexivity|]. split; [repeat constructor|]. split.
  - cbn. repeat (constructor; [cbn; intuition discriminate|]). constructor.
  - intros a b ca cb ta tb Ha Hb Hca Hcb Hta Htb Hlt.
    cbn [elements get_hardware_matrix In] in Ha, Hb.
    repeat (destruct Ha as [<-|Ha]; [|]); try contradiction;
      (repeat (destruct Hb as [<-|Hb]; [|]); try contradiction);
      vm_compute in Hca, Hcb, Hta, Htb;
      injection Hca as <-; injection Hcb as <-;
      injection Hta as <-; injection Htb as <-;
      first [reflexivity | exfalso; vm_compute in Hlt; discriminate Hlt].
Qed.

(** ** Zero-padded decimals *)

Lemma unlit_cons (a : char) (l : str) :
  unlit (a :: l) = String (ascii_of_N a) (unlit l).
Proof. reflexivity. Qed.

Lemma uint_pad (k : nat) (l : str) (d : Decimal.uint) :
  NilEmpty.uint_of_string (unlit l) = Some d ->
  exists d',
    NilEmpty.uint_of_string (unlit (repeat 48%N k ++ l)) = Some d' /\
    Z.of_uint d' = Z.of_uint d.
Proof.
  intros H. induction k as [|k (d' & Hd' & Hz)].
  - exists d. split; [exact H | reflexivity].
  - exists (Decimal.D0 d'). split; [|exact Hz].
    cbn [repeat app]. rewrite unlit_cons.
    cbn [NilEmpty.uint_of_string]. rewrite Hd'. reflexivity.
Qed.

Lemma int_of_digits (s : string) (d : Decimal.uint) :
  s <> EmptyString -> NilEmpty.uint_of_string s = Some d ->
  NilZero.int_of_string s = Some (Decimal.Pos d).
Proof.
  destruct s as [|a s]; [congruence|]. intros _ H.
  unfold NilZero.int_of_string.
  destruct (Ascii.eqb a "-") eqn:E.
  - apply Ascii.eqb_eq in E. subst a. cbn in H.
    destruct (NilEmpty.uint_of_string s); discriminate.
  - unfold NilZero.uint_of_string. rewrite H. reflexivity.
Qed.

Lemma digits_of_nonneg (i : Z) :
  0 <= i ->
  exists d, NilEmpty.uint_of_string (unlit (str_of_int i)) = Some d /\
            Z.of_uint d = i /\ str_of_int i <> [].
Proof.
  intros Hi. unfold str_of_int. rewrite unlit_lit.
  pose proof (DecimalZ.of_to i) as Hz.
  destruct (to_int_not_nil i) as [Hn _].
  destruct (Z.to_int i) as [d|d] eqn:E.
  - exists d. cbn [NilZero.string_of_int].
    assert (d <> Decimal.Nil) as Hd by congruence.
    split; [|split].
    + pose proof (NilZero.usu d Hd) as Hu.
      unfold NilZero.uint_of_string in Hu.
      destruct (NilZero.string_of_uint d); [discriminate | exact Hu].
    + exact Hz.
    + destruct d; cbn; discriminate.
  - destruct i; cbn in E; try discriminate. lia.
Qed.

(** A number formatted with zero padding reads back as itself,
    whatever the width and the sign. *)
Lemma format_d_reads_back (width : nat) (i : Z) :
  int_of_str (format_d width i) = Some i.
Proof.
  unfold format_d, int_of_str.
  destruct (digits_of_nonneg (Z.abs i) (Z.abs_nonneg i)) as (d & Hd & Hz & Hne).
  destruct (i <? 0) eqn:Hs.
  - apply Z.ltb_lt in Hs.
    set (k := (width - List.length (lit "-") - List.length (str_of_int (Z.abs i)))%nat).
    destruct (uint_pad k _ _ Hd) as (d' & Hd' & Hz').
    change (lit "-" ++ repeat 48%N k ++ str_of_int (Z.abs i))
      with (45%N :: (repeat 48%N k ++ str_of_int (Z.abs i))).
    rewrite unlit_cons.
    change (ascii_of_N 45) with "-"%char.
    unfold NilZero.int_of_string. rewrite Ascii.eqb_refl.
    unfold NilZero.uint_of_string.
    destruct (unlit (repeat 48%N k ++ str_of_int (Z.abs i))) eqn:E.
    + cbn in Hd'. injection Hd' as <-. cbn in Hz'. lia.
    + rewrite Hd'. cbn [option_map Z.of_int]. f_equal. lia.
  - apply Z.ltb_ge in Hs. cbn [app].
    set (k := (width - List.length (@nil char) - List.length (str_of_int (Z.abs i)))%nat).
    destruct (uint_pad k _ _ Hd) as (d' & Hd' & Hz').
    rewrite (int_of_digits _ d').
    + cbn [option_map Z.of_int]. f_equal. lia.
    + destruct (repeat 48%N k); [|discriminate].
      destruct (str_of_int (Z.abs i)); [congruence | discriminate].
    + exact Hd'.
Qed.

Lemma format_d_inj (width : nat) (i j : Z) :
  format_d width i = format_d width j -> i = j.
Proof.
  intros H. apply (f_equal int_of_str) in H.
  rewrite !format_d_reads_back in H. congruence.
Qed.

(** ** The calibration samples *)

Lemma id_is_padded_all : forallb id_is_padded (range 0 10000) = true.
Proof. vm_compute. reflexivity. Qed.

(** X9. The id of sample [i] is [sample_] followed by digits that
    read back as [i]; for [i] below 10000 these are exactly four
    digits, the thousands, hundreds, tens and units of [i], zeros
    included ([sample_0007] for 7); samples with different numbers
    have different ids; the script writes 100 samples and their ids
    are pairwise different. *)
Theorem sample_id_reads_back (i j : Z) :
  (exists digits,
     get "id" (calibration_sample i) = Some (PStr (lit "sample_" ++ digits)) /\
     int_of_str digits = Some i) /\
  (get "id" (calibration_sample i) = get "id" (calibration_sample j) ->
   i = j) /\
  List.length calibration_samples = 100%nat /\
  NoDup (map (get "id") calibration_samples) /\
  (0 <= i < 10000 ->
   get "id" (calibration_sample i)
     = Some (PStr (lit "sample_" ++ four_digits i)) /\
   List.length (four_digits i) = 4%nat) /\
  get "id" (calibration_sample 7) = Some (PStr (lit "sample_0007")).
Proof.
  split; [|split; [|split; [|split; [|split]]]].
  - exists (format_d 4 i). split; [reflexivity | apply format_d_reads_back].
  - cbn. intros [= H]. apply (format_d_inj 4). exact H.
  - reflexivity.
  - unfold calibration_samples. rewrite map_map.
    apply Finite.Injective_map_NoDup_in; [|apply NoDup_range].
    intros x y _ _ [= H]. apply (format_d_inj 4). exact H.
  - intros Hi. split; [|reflexivity].
    pose proof id_is_padded_all as Hall. rewrite forallb_forall in Hall.
    specialize (Hall i (In_range 0 10000 i Hi)).
    unfold id_is_padded in Hall. apply str_eqb_eq in Hall.
    change (get "id" (calibration_sample i))
      with (Some (PStr (lit "sample_" ++ format_d 4 i))).
    rewrite Hall. reflexivity.
  - reflexivity.
Qed.

(** X10. In every sample the input range is symmetric, [min] is the
    negative of [max], and [min] lies between -1 and -1/2; the class
    is [i mod 10], between 0 and 9; the sample is augmented exactly
    when [i] is even. *)
Theorem sample_value_ranges (i : Z) :
  exists lo hi,
    get_path ["input"; "min"]%string (calibration_sample i) = Some (PFloat lo) /\
    get_path ["input"; "max"]%string (calibration_sample i) = Some (PFloat hi) /\
    lo = (- hi)%Q /\ (-1 <= lo)%Q /\ (lo <= - (1 # 2))%Q /\
    get_path ["output"; "class"]%string (calibration_sample i)
      = Some (PInt (i mod 10)) /\
    0 <= i mod 10 <= 9 /\
    get_path ["metadata"; "augmentation"]%string (calibration_sample i)
      = Some (PBool (Z.even i)).
Proof.
  eexists. eexists. split; [reflexivity|]. split; [reflexivity|].
  pose proof (Z.mod_pos_bound i 5 ltac:(lia)) as H5.
  pose proof (Z.mod_pos_bound i 10 ltac:(lia)) as H10.
  assert (i mod 5 = 0 \/ i mod 5 = 1 \/ i mod 5 = 2 \/ i mod 5 = 3 \/
          i mod 5 = 4) as Hk by lia.
  split; [|split; [|split; [|split; [|split]]]].
  - destruct Hk as [->|[->|[->|[->| ->]]]]; vm_compute; reflexivity.
  - destruct Hk as [->|[->|[->|[->| ->]]]]; vm_compute; discriminate.
  - destruct Hk as [->|[->|[->|[->| ->]]]]; vm_compute; discriminate.
  - reflexivity.
  - lia.
  - cbn. rewrite Zmod_even. destruct (Z.even i); reflexivity.
Qed.

Lemma minute_is_all : forallb minute_is (range 0 100) = true.
Proof. vm_compute. reflexivity. Qed.

(** X11. The minute field of the timestamp of sample [i] is [i]
    itself, in two digits, for each of the 100 samples; 40 of the
    samples therefore carry a minute of 60 or more. *)
Theorem sample_timestamp_minutes :
  (forall i, 0 <= i < 100 ->
     get_path ["metadata"; "timestamp"]%string (calibration_sample i)
       = Some (PStr (lit "2024-12-05T10:" ++ format_d 2 i ++ lit ":00Z")) /\
     timestamp_minute (calibration_sample i) = Some i) /\
  List.length (filter off_the_clock calibration_samples) = 40%nat.
Proof.
  split; [|vm_compute; reflexivity].
  intros i Hi. split; [reflexivity|].
  pose proof minute_is_all as Hall. rewrite forallb_forall in Hall.
  specialize (Hall i (In_range 0 100 i Hi)). unfold minute_is in Hall.
  destruct (timestamp_minute (calibration_sample i)) as [m|];
    [|discriminate].
  apply Z.eqb_eq in Hall. congruence.
Qed.

(** X12. Each of the ten classes labels exactly 10 of the 100
    samples, and exactly 50 samples are augmented. *)
Theorem dataset_is_balanced :
  (forall c, 0 <= c <= 9 ->
     List.length (filter (has_class c) calibration_samples) = 10%nat) /\
  List.length (filter is_augmented calibration_samples) = 50%nat.
Proof.
  split; [|vm_compute; reflexivity].
  intros c Hc.
  assert (c = 0 \/ c = 1 \/ c = 2 \/ c = 3 \/ c = 4 \/ c = 5 \/ c = 6 \/
          c = 7 \/ c = 8 \/ c = 9) as H by lia.
  repeat (destruct H as [->|H]; [vm_compute; reflexivity|]).
  subst c. vm_compute. reflexivity.
Qed.

(** ** Runs of the further properties on the reference generator *)

Lemma unspiked_layer_error_witness :
  Float.ltb (fst (Lcg.random (snd (Lcg.random (snd (Lcg.choice layer_types 294))))))
            (Float.literal (8 # 100)) = false /\
  exists name n,
    snd (@sensitivity_step LcgRandom (294, []) 1) =
      [layer_record name (Float.literal (n # 1000))] /\
    0 <= n <= 80.
Proof.
  assert (Float.ltb
            (fst (Lcg.random (snd (Lcg.random (snd (Lcg.choice layer_types 294))))))
            (Float.literal (8 # 100)) = false) as H by (vm_compute; reflexivity).
  split; [exact H|].
  destruct (@unspiked_layer_error LcgRandom 294 [] 1 H)
    as (name & n & Hstep & Hn & _).
  exists name, n. split; [exact (f_equal snd Hstep) | exact Hn].
Defined.

Lemma equal_code_sums_collide_witness :
  char_code_sum (lit "ad") = char_code_sum (lit "bc") /\
  @get_sensitivity LcgRandom (lit "ad") = @get_sensitivity LcgRandom (lit "bc") /\
  @get_graph LcgRandom (lit "ad") = @get_graph LcgRandom (lit "bc").
Proof.
  assert (char_code_sum (lit "ad") = char_code_sum (lit "bc")) as H
      by reflexivity.
  split; [exact H|].
  exact (@equal_code_sums_collide LcgRandom (lit "ad") (lit "bc") H).
Defined.
